(** * The appender package of contain: pull a base image, append layers,
    annotate, push with progress reporting.

    The development embeds the package's functions ([New], [Options],
    [base], [Append], [annotate], [push], [LayerType]) as programs in a small
    monad over the process state (the zap log, the registry calls made, the
    clock), parameterised by the behaviour of the collaborators the package
    imports: go-containerregistry (name, remote, mutate, v1) and the wall
    clock.  Theorems are stated for every such behaviour; the module
    [Sample] fixes one to run the programs on concrete inputs. *)

From Stdlib Require Import ZArith Ascii String List Bool Lia Sorted.
From stdpp Require Import gmap strings list.
Import ListNotations.

Local Open Scope string_scope.
Local Open Scope list_scope.

(** ** Go values shared by the whole package *)

(** A Go [error] value.  Collaborators hand out [libError]s; the package
    itself only ever builds errors with [fmt.Errorf("<context>: %w", err)],
    which is [wrapError]. A nilable [error] is an [option error]. *)
Inductive error : Type :=
| libError (msg : string)
| wrapError (context : string) (cause : error).

(** ** pkg/v1/types: the media type constants the package compares against *)
Module types.

Definition MediaType := string.
Definition OCIManifestSchema1 : MediaType := "application/vnd.oci.image.manifest.v1+json".
Definition OCILayer : MediaType := "application/vnd.oci.image.layer.v1.tar+gzip".
Definition DockerLayer : MediaType := "application/vnd.docker.image.rootfs.diff.tar.gzip".

End types.

(** ** pkg/v1: hashes and progress updates *)
Module v1.

(** [v1.Hash]; the zero value [Hash{}] has both fields empty. *)
Record Hash := mkHash { Algorithm : string; Hex : string }.

Definition zeroHash : Hash := mkHash "" "".

(** [Hash.String]: algorithm, a colon, the hex digest. *)
Definition Hash_String (h : Hash) : string := Algorithm h +:+ ":" +:+ Hex h.

(** [v1.Update]: bytes completed, bytes total, or a terminal error. *)
Record Update := mkUpdate { Complete : Z; Total : Z; Error : option error }.

End v1.

(** ** pkg/name: parsed registry coordinates *)
Module name.

Definition DefaultRegistry : string := "index.docker.io".
Definition defaultNamespace : string := "library".

Record Repository := mkRepository { registry : string; repository : string }.

(** The two dynamic types behind the [name.Reference] interface, each with
    the string it was parsed from ([original]).  The nil interface value is
    [None] at type [option Reference]. *)
Inductive Reference : Type :=
| Tag (repo : Repository) (tag : string) (original : string)
| Digest (repo : Repository) (digest : string) (original : string).

Fixpoint containsSlash (s : string) : bool :=
  match s with
  | EmptyString => false
  | String c rest => if Ascii.eqb c "/"%char then true else containsSlash rest
  end.

Definition hasImplicitNamespace (r : Repository) : bool :=
  negb (containsSlash (repository r)) && String.eqb (registry r) DefaultRegistry.

(** [Repository.RepositoryStr]: Docker Hub images without a namespace get
    the implicit [library/]. *)
Definition RepositoryStr (r : Repository) : string :=
  if hasImplicitNamespace r then defaultNamespace +:+ "/" +:+ repository r
  else repository r.

Definition Context (ref : Reference) : Repository :=
  match ref with Tag repo _ _ => repo | Digest repo _ _ => repo end.

Definition Identifier (ref : Reference) : string :=
  match ref with Tag _ tag _ => tag | Digest _ digest _ => digest end.

(** [Tag.String] and [Digest.String]: the reference as it was written. *)
Definition String (ref : Reference) : string :=
  match ref with
  | Tag _ _ original => original
  | Digest _ _ original => original
  end.

(** The type assertion [ref.(name.Tag)] with the comma-ok form: false on a
    digest reference and on the nil interface, never a panic. *)
Definition isTag (ref : option Reference) : bool :=
  match ref with Some (Tag _ _ _) => true | _ => false end.

End name.

(** ** image-spec annotation keys *)
Module specsv1.

Definition AnnotationBaseImageDigest : string := "org.opencontainers.image.base.digest".
Definition AnnotationBaseImageName : string := "org.opencontainers.image.base.name".

End specsv1.

(** ** pkg/schema/v1: the configuration the package reads *)
Module schema.

Record ContainConfig := mkContainConfig {
  Base : string;
  Tag : string;
  Platforms : list string
}.

End schema.

(** ** zap: log entries *)
Module zap.

Inductive Level := DebugLevel | InfoLevel | WarnLevel | ErrorLevel | FatalLevel.

Inductive Field : Type :=
| String (key value : string)
| Strings (key : string) (values : list string)
| Int64 (key : string) (value : Z)
| Error (err : error).

Record Entry := mkEntry { level : Level; message : string; fields : list Field }.

End zap.

(** ** pkg/v1/remote: options and the observable run of a registry write *)
Module remote.

(** [remote.Option] values are opaque closures; the package only ever adds
    [WithProgress] to whatever [craneOptions.Remote] holds. *)
Inductive Option : Type :=
| WithProgress
| OtherOption (label : string).

(** What the goroutine running [remote.Write] does, as far as the caller can
    see: the updates it sends on the progress channel, whether it closes that
    channel, and the error it returns (sent on the result channel).  A write
    that panics takes the process down. *)
Inductive WriteRun : Type :=
| WriteCrashes
| WriteRuns (sent : list v1.Update) (closes : bool) (returned : option error).

End remote.

Module crane.

Record Options := mkOptions { Remote : list remote.Option }.

End crane.

(** ** The appender package *)
Module appender.

(** How a call of one of the package's functions ends: it returns, the
    process exits (zap's [Fatal] logs and then calls [os.Exit(1)]), it panics
    (a nil dereference, an index out of range), or it blocks forever on a
    channel nobody will send on or close. *)
Inductive Outcome (A : Type) : Type :=
| Ret (a : A)
| Exit
| Panic
| Blocked.

Arguments Ret {A} a.
Arguments Exit {A}.
Arguments Panic {A}.
Arguments Blocked {A}.

Section Package.

(** [v1.Image] and [v1.Layer] are interfaces implemented by the registry
    client; the package never looks inside them. *)
Context {Image Layer : Type}.

(** *** The process: log, registry calls, clock *)

(** A call the package makes on the registry client. *)
Inductive Call : Type :=
| ImageCall (ref : option name.Reference) (options : list remote.Option)
| WriteCall (ref : option name.Reference) (image : Image) (options : list remote.Option).

(** The state of the process as the package changes it: the entries written
    through the global logger [zap.L()], each stamped with the latest clock
    reading the program has taken ([lastRead]); the registry calls made; and
    the number of clock readings taken so far. *)
Record World := mkWorld {
  logged : list (Z * zap.Entry);
  calls : list Call;
  ticks : nat;
  lastRead : Z
}.

(** What the collaborators do.  Every function result the package receives
    from outside is a field here, so a theorem quantified over [Env] holds
    whatever the registry, the parser and the clock answer.
    - A Go function returning [(T, error)] whose value the package reads only
      when the error is nil is a sum; [ParseReference] and [Digest], whose
      value the package goes on to use after an error, return the pair.
    - [Layers] and [ManifestAnnotations] are what a reader of an image sees
      in its manifest ([img.Layers()], [img.Manifest().Annotations]).  The
      package calls neither; they are here to speak about the image it
      pushes.
    - [clock n] is what the [n]-th call of [time.Now()] returns, in
      nanoseconds.
    - [writerFirst] is the scheduler's choice when both the writing goroutine
      and the draining loop send on the result channel: whether the
      goroutine's send lands first. *)
Record Env := mkEnv {
  ParseReference : string -> option name.Reference * option error;
  remote_Image : option name.Reference -> list remote.Option -> Image + error;
  MediaType : Image -> types.MediaType + error;
  Digest : Image -> v1.Hash * option error;
  mutate_AppendLayers : Image -> list Layer -> Image + error;
  mutate_Annotations : Image -> gmap string string -> Image;
  remote_Write : option name.Reference -> Image -> list remote.Option -> remote.WriteRun;
  Layers : Image -> list Layer;
  ManifestAnnotations : Image -> gmap string string;
  clock : nat -> Z;
  writerFirst : bool
}.

Definition M (A : Type) : Type := World -> Outcome A * World.

Definition ret {A} (a : A) : M A := fun w => (Ret a, w).

Definition bind {A B} (m : M A) (k : A -> M B) : M B :=
  fun w =>
    match m w with
    | (Ret a, w') => k a w'
    | (Exit, w') => (Exit, w')
    | (Panic, w') => (Panic, w')
    | (Blocked, w') => (Blocked, w')
    end.

Notation "'let*' x ':=' c1 'in' c2" := (bind c1 (fun x => c2))
  (at level 10, x pattern, c1 at level 100, c2 at level 200).

Definition panic {A} : M A := fun w => (Panic, w).
Definition block {A} : M A := fun w => (Blocked, w).

(** A method call or field read through a possibly nil interface value. *)
Definition deref {A} (r : option A) : M A :=
  match r with Some x => ret x | None => panic end.

Definition when (b : bool) (m : M unit) : M unit := if b then m else ret tt.

(** [if err != nil { handler }] *)
Definition ifErr (err : option error) (handler : error -> M unit) : M unit :=
  match err with Some e => handler e | None => ret tt end.

Definition appendEntry (lvl : zap.Level) (msg : string) (fs : list zap.Field) (w : World) : World :=
  mkWorld (logged w ++ [(lastRead w, zap.mkEntry lvl msg fs)]) (calls w) (ticks w) (lastRead w).

Definition log (lvl : zap.Level) (msg : string) (fs : list zap.Field) : M unit :=
  fun w => (Ret tt, appendEntry lvl msg fs w).

(** [zap.L().Fatal]: the entry is written, then the process exits. *)
Definition Fatal {A} (msg : string) (fs : list zap.Field) : M A :=
  fun w => (Exit, appendEntry zap.FatalLevel msg fs w).

Definition recordCall (c : Call) : M unit :=
  fun w => (Ret tt, mkWorld (logged w) (calls w ++ [c]) (ticks w) (lastRead w)).

Variable E : Env.

(** [time.Now()]: the next reading of the clock. *)
Definition time_Now : M Z :=
  fun w => let t := clock E (ticks w) in
           (Ret t, mkWorld (logged w) (calls w) (S (ticks w)) t).

(** *** The Appender *)

Definition progressReportMinInterval : string := "1s".

(** [time.ParseDuration], on the one literal the package passes to it: one
    second, in nanoseconds.  Other strings are not durations this package
    ever parses; the model answers them with an error. *)
Definition time_ParseDuration (s : string) : Z * option error :=
  if String.eqb s "1s" then (1000000000%Z, None)
  else (0%Z, Some (libError ("time: invalid duration " +:+ s))).

Record Appender := mkAppender {
  config : schema.ContainConfig;
  baseRef : option name.Reference;
  tagRef : option name.Reference;
  mediaType : types.MediaType;
  layerType : types.MediaType;
  craneOptions : crane.Options
}.

Definition set_baseRef (r : option name.Reference) (c : Appender) : Appender :=
  mkAppender (config c) r (tagRef c) (mediaType c) (layerType c) (craneOptions c).
Definition set_tagRef (r : option name.Reference) (c : Appender) : Appender :=
  mkAppender (config c) (baseRef c) r (mediaType c) (layerType c) (craneOptions c).
Definition set_mediaType (m : types.MediaType) (c : Appender) : Appender :=
  mkAppender (config c) (baseRef c) (tagRef c) m (layerType c) (craneOptions c).
Definition set_layerType (m : types.MediaType) (c : Appender) : Appender :=
  mkAppender (config c) (baseRef c) (tagRef c) (mediaType c) m (craneOptions c).
Definition set_config (cfg : schema.ContainConfig) (c : Appender) : Appender :=
  mkAppender cfg (baseRef c) (tagRef c) (mediaType c) (layerType c) (craneOptions c).

(** [New]: both references are parsed; a parse error is logged and nothing
    else is done about it.  [c.baseRef.String()] is evaluated for the debug
    entry whether or not the parse succeeded; the same call on [c.tagRef] is
    guarded by a nil check.  The error result is always nil. *)
Definition New (config : schema.ContainConfig) : M (Appender * option error) :=
  let c := mkAppender config None None "" "" (crane.mkOptions []) in
  let '(ref, err) := ParseReference E (schema.Base config) in
  let c := set_baseRef ref c in
  let* _ := ifErr err (fun e =>
              log zap.ErrorLevel "Failed to parse base"
                  [zap.String "ref" (schema.Base config); zap.Error e]) in
  let* b := deref (baseRef c) in
  let* _ := log zap.DebugLevel "base image" [zap.String "ref" (name.String b)] in
  let '(ref, err) := ParseReference E (schema.Tag config) in
  let c := set_tagRef ref c in
  let* _ := ifErr err (fun e =>
              log zap.ErrorLevel "Failed to parse result image ref"
                  [zap.String "ref" (schema.Tag config); zap.Error e]) in
  let* _ := match tagRef c with
            | Some t => log zap.DebugLevel "target image" [zap.String "ref" (name.String t)]
            | None => ret tt
            end in
  ret (c, None).

(** [Options]: [return nil] follows a [Fatal]. *)
Definition Options (c : Appender) : M (option (list remote.Option)) :=
  let* _ := Fatal (A := unit) "TODO how?" [] in
  ret None.

(** [base]: pulls the base image and fixes the media type pair on the
    receiver, which is returned with the result. *)
Definition base (c : Appender) : M (Appender * (Image + error)) :=
  let* _ := when (negb (String.eqb (mediaType c) ""))
              (Fatal "contain.Base() has already been invoked" []) in
  let* _ := recordCall (ImageCall (baseRef c) (crane.Remote (craneOptions c))) in
  match remote_Image E (baseRef c) (crane.Remote (craneOptions c)) with
  | inr err =>
      let* b := deref (baseRef c) in
      ret (c, inr (wrapError ("pulling " +:+ name.String b) err))
  | inl base =>
      match MediaType E base with
      | inr err => ret (c, inr (wrapError "getting base image media type" err))
      | inl mediaType =>
          let c := if String.eqb mediaType types.OCIManifestSchema1
                   then set_layerType types.OCILayer c
                   else set_layerType types.DockerLayer c in
          let c := set_mediaType mediaType c in
          ret (c, inl base)
      end
  end.

(** [annotate]: the map [a] of the source, then [mutate.Annotations]. *)
Definition annotate (c : Appender) (image : Image) (baseDigest : v1.Hash) : Image :=
  let a : gmap string string :=
    {[ specsv1.AnnotationBaseImageDigest := v1.Hash_String baseDigest ]} in
  let a :=
    match baseRef c with
    | Some (name.Tag repo tag original as ref) =>
        <[ specsv1.AnnotationBaseImageName :=
             "/" +:+ name.RepositoryStr (name.Context ref) +:+ ":" +:+ name.Identifier ref ]> a
    | _ => a
    end in
  mutate_Annotations E image a.

(** The [for update := range progressChan] loop of [push].  [progressChan]
    is what is still to be received, [closes] whether the channel is closed
    after it; the loop state is [nextProgress] and the contents of
    [errChan].  Receiving from a channel that is empty and never closed
    blocks. *)
Fixpoint drain (debounce : Z) (progressChan : list v1.Update) (closes : bool)
    (nextProgress : Z) (errChan : list (option error)) : M (Z * list (option error)) :=
  match progressChan with
  | [] => if closes then ret (nextProgress, errChan) else block
  | update :: rest =>
      match v1.Error update with
      | Some e =>
          let* _ := log zap.ErrorLevel "push update" [zap.Error e] in
          ret (nextProgress, errChan ++ [Some e])
      | None =>
          if (v1.Complete update =? v1.Total update)%Z then
            let* _ := log zap.InfoLevel "pushed"
                        [zap.Int64 "completed" (v1.Complete update);
                         zap.Int64 "total" (v1.Total update)] in
            drain debounce rest closes nextProgress errChan
          else
            let* now := time_Now in
            if (nextProgress <? now)%Z then
              let* now' := time_Now in
              let nextProgress := (now' + debounce)%Z in
              let* _ := log zap.InfoLevel "push"
                          [zap.Int64 "completed" (v1.Complete update);
                           zap.Int64 "total" (v1.Total update)] in
              drain debounce rest closes nextProgress errChan
            else
              drain debounce rest closes nextProgress errChan
      end
  end.

(** [<-errChan]: the first value sent. *)
Definition receive (errChan : list (option error)) : M (option error) :=
  match errChan with
  | v :: _ => ret v
  | [] => block
  end.

(** [push].  The goroutine's one send on [errChan] is the value
    [remote.Write] returned; the scheduler places it before or after the
    loop's own send. *)
Definition push (c : Appender) (image : Image) : M (option error) :=
  match MediaType E image with
  | inr err => ret (Some err)
  | inl mediaType =>
      let* _ := log zap.InfoLevel "pushing" [zap.String "mediaType" mediaType] in
      let '(debounce, err) := time_ParseDuration progressReportMinInterval in
      let* _ := ifErr err (fun e =>
                  Fatal "failed to parse debounce interval"
                        [zap.String "value" progressReportMinInterval; zap.Error e]) in
      let options := crane.Remote (craneOptions c) ++ [remote.WithProgress] in
      let* _ := recordCall (WriteCall (tagRef c) image options) in
      match remote_Write E (tagRef c) image options with
      | remote.WriteCrashes => panic
      | remote.WriteRuns sent closes returned =>
          let errChan := if writerFirst E then [returned] else [] in
          let* now := time_Now in
          let nextProgress := (now + debounce)%Z in
          let* (_, errChan) := drain debounce sent closes nextProgress errChan in
          let errChan := if writerFirst E then errChan else errChan ++ [returned] in
          receive errChan
      end
  end.

(** [Append].  After [base.Digest()] fails the entry is logged and the
    function carries on with the hash it was handed; the check after
    [annotate] re-reads the [err] of [mutate.AppendLayers], which is nil
    there. *)
Definition Append (c : Appender) (layers : list Layer) : M (Appender * (v1.Hash * option error)) :=
  let platforms := schema.Platforms (config c) in
  let* _ := when (Nat.ltb 1 (length platforms))
              (log zap.WarnLevel "unsupported multiple platforms, falling back to all"
                   [zap.Strings "platforms" platforms]) in
  let* _ := when (Nat.eqb (length platforms) 1)
              (let* p := deref (platforms !! 0) in
               log zap.WarnLevel "unsupported single platform, falling back to all"
                   [zap.String "platform" p]) in
  let noresult := v1.zeroHash in
  let* (c, r) := base c in
  match r with
  | inr err =>
      let* _ := log zap.ErrorLevel "Failed to get base image" [zap.Error err] in
      ret (c, (noresult, Some err))
  | inl base =>
      let '(baseDigest, err) := Digest E base in
      let* _ := ifErr err (fun e =>
                  log zap.ErrorLevel "Failed to get base image digest" [zap.Error e]) in
      match mutate_AppendLayers E base layers with
      | inr err =>
          let* _ := log zap.ErrorLevel "Failed to append layers" [zap.Error err] in
          ret (c, (noresult, Some err))
      | inl img =>
          let img := annotate c img baseDigest in
          let '(imgDigest, err) := Digest E img in
          match err with
          | Some e =>
              let* _ := log zap.ErrorLevel "Failed to get result image digest" [zap.Error e] in
              ret (c, (noresult, Some e))
          | None =>
              let* err := push c img in
              match err with
              | Some e =>
                  let* _ := log zap.ErrorLevel "Failed to push" [zap.Error e] in
                  ret (c, (noresult, Some e))
              | None =>
                  let* _ := log zap.InfoLevel "pushed"
                              [zap.String "digest" (v1.Hash_String imgDigest)] in
                  ret (c, (imgDigest, None))
              end
          end
      end
  end.


(** *** What the package relies on from its collaborators *)


(** pkg/v1/remote as documented: when a write fails, the error placed in
    the last progress update is the error [remote.Write] returns. *)
Definition write_contract (sent : list v1.Update) (returned : option error) : Prop :=
  forall u e, In u sent -> v1.Error u = Some e -> returned = Some e.

(** The clock never runs backwards (Go compares monotonic readings). *)
Definition monotone_clock : Prop :=
  forall i j, i <= j -> (clock E i <= clock E j)%Z.

(** *** Reading the state *)

(** The layer type that goes with a manifest media type. *)
Definition layerTypeFor (mt : types.MediaType) : types.MediaType :=
  if String.eqb mt types.OCIManifestSchema1 then types.OCILayer else types.DockerLayer.

(** The world after [base] has called [remote.Image]. *)
Definition pulled (c : Appender) (w : World) : World :=
  mkWorld (logged w) (calls w ++ [ImageCall (baseRef c) (crane.Remote (craneOptions c))])
          (ticks w) (lastRead w).

(** The options [push] hands to [remote.Write]. *)
Definition writeOptions (c : Appender) : list remote.Option :=
  crane.Remote (craneOptions c) ++ [remote.WithProgress].

(** The world when the drain loop of [push] starts: the [pushing] entry is
    logged, [remote.Write] has been called, the clock has been read once. *)
Definition started (c : Appender) (image : Image) (mt : types.MediaType) (w : World) : World :=
  mkWorld (logged w ++ [(lastRead w,
                         zap.mkEntry zap.InfoLevel "pushing" [zap.String "mediaType" mt])])
          (calls w ++ [WriteCall (tagRef c) image (writeOptions c)])
          (S (ticks w)) (clock E (ticks w)).

(** The warning [Append] logs about a platform list, if any. *)
Definition platformWarning (platforms : list string) : option zap.Entry :=
  match platforms with
  | [] => None
  | [p] => Some (zap.mkEntry zap.WarnLevel "unsupported single platform, falling back to all"
                             [zap.String "platform" p])
  | _ => Some (zap.mkEntry zap.WarnLevel "unsupported multiple platforms, falling back to all"
                           [zap.Strings "platforms" platforms])
  end.

Definition logEntry (e : zap.Entry) (w : World) : World :=
  appendEntry (zap.level e) (zap.message e) (zap.fields e) w.

Definition warned (platforms : list string) (w : World) : World :=
  match platformWarning platforms with
  | Some e => logEntry e w
  | None => w
  end.

(** The same Appender with another platform list configured. *)
Definition withPlatforms (platforms : list string) (c : Appender) : Appender :=
  set_config (schema.mkContainConfig (schema.Base (config c)) (schema.Tag (config c)) platforms) c.

(** The result of a method run on a copy of the receiver that differs in
    its configuration only, handed back with configuration [cfg]. *)
Definition underConfig {A} (cfg : schema.ContainConfig)
    (r : Outcome (Appender * A) * World) : Outcome (Appender * A) * World :=
  (match fst r with
   | Ret (c, a) => Ret (set_config cfg c, a)
   | Exit => Exit
   | Panic => Panic
   | Blocked => Blocked
   end, snd r).

(** The receiver after [base] has fixed the media type pair. *)
Definition resolved (c : Appender) (mt : types.MediaType) : Appender :=
  set_mediaType mt (set_layerType (layerTypeFor mt) c).

(** The world after the check of [base.Digest()]'s error in [Append]. *)
Definition digestChecked (err : option error) (w : World) : World :=
  match err with
  | Some e => appendEntry zap.ErrorLevel "Failed to get base image digest" [zap.Error e] w
  | None => w
  end.

(** The world in which [Append] goes on once [base] has returned an image:
    platform warning logged, [remote.Image] called, digest error logged. *)
Definition assembling (c : Appender) (b : Image) (w : World) : World :=
  digestChecked (snd (Digest E b)) (pulled c (warned (schema.Platforms (config c)) w)).

(** The image [Append] builds from base [b] and the appended image [img]. *)
Definition annotated (c : Appender) (b img : Image) : Image :=
  annotate c img (fst (Digest E b)).

(** *** Reading the log *)

(** The values sent on [errChan] in the order they arrive, for a write that
    sends [sent] and returns [returned]: the loop forwards the error of the
    first update that carries one, and the goroutine sends what
    [remote.Write] returned, before or after it. *)
Fixpoint forwarded (sent : list v1.Update) : list (option error) :=
  match sent with
  | [] => []
  | u :: rest =>
      match v1.Error u with
      | Some e => [Some e]
      | None => forwarded rest
      end
  end.

Definition sentOnErrChan (sent : list v1.Update) (returned : option error) : list (option error) :=
  if writerFirst E then returned :: forwarded sent else forwarded sent ++ [returned].

(** The range loop ends: the channel is closed after the last update, or an
    update carries an error (the loop breaks there). *)
Definition drainEnds (sent : list v1.Update) (closes : bool) : Prop :=
  closes = true \/ forwarded sent <> [].

(** The updates the loop handles before it ends: all of them, or those in
    front of the first one that carries an error. *)
Fixpoint received (sent : list v1.Update) : list v1.Update :=
  match sent with
  | [] => []
  | u :: rest =>
      match v1.Error u with
      | Some _ => []
      | None => u :: received rest
      end
  end.

Definition isProgressLine (e : zap.Entry) : bool :=
  String.eqb (zap.message e) "push".

Definition isCompletionLine (e : zap.Entry) : bool :=
  String.eqb (zap.message e) "pushed".

Definition stamps (p : zap.Entry -> bool) (entries : list (Z * zap.Entry)) : list Z :=
  map fst (List.filter (fun te => p (snd te)) entries).

Definition inWindow (from width : Z) (t : Z) : bool :=
  ((from <=? t) && (t <=? from + width))%Z.

Definition isComplete (u : v1.Update) : bool := (v1.Complete u =? v1.Total u)%Z.

Definition completionFields (u : v1.Update) : list zap.Field :=
  [zap.Int64 "completed" (v1.Complete u); zap.Int64 "total" (v1.Total u)].

Definition completionLine (u : v1.Update) : zap.Entry :=
  zap.mkEntry zap.InfoLevel "pushed" (completionFields u).

(** Two stamps more than [width] apart. *)
Definition apart (width : Z) (t1 t2 : Z) : Prop := (t1 + width < t2)%Z.

(** The messages [push] logs. *)
Definition pushMessages : list string := ["pushing"; "pushed"; "push"; "push update"].

Definition fromPush (te : Z * zap.Entry) : Prop := In (zap.message (snd te)) pushMessages.

(** An entry other than the one [Append] logs when [mutate.AppendLayers]
    fails. *)
Definition notAppendFailure (te : Z * zap.Entry) : Prop :=
  zap.message (snd te) <> "Failed to append layers".

(** One second, as [time.ParseDuration] returns it. *)
Definition second : Z := 1000000000%Z.

End Package.

(** ** A registry to run the package against *)
Module Sample.

(** An image as a reader of its manifest sees it.  [broken] marks an image
    whose manifest cannot be hashed: its [Digest()] returns an error. *)
Record Image := mkImage {
  manifestMediaType : string;
  layers : list string;
  annotations : gmap string string;
  broken : bool
}.

Definition Layer := string.

Definition DockerManifestSchema2 : string := "application/vnd.docker.distribution.manifest.v2+json".

Definition busybox : Image := mkImage DockerManifestSchema2 ["busybox-rootfs"] ∅ false.
Definition alpine : Image := mkImage types.OCIManifestSchema1 ["alpine-rootfs"] ∅ false.
Definition scratchy : Image := mkImage types.OCIManifestSchema1 ["scratchy-rootfs"] ∅ true.

Definition hub (repo : string) : name.Repository := name.mkRepository name.DefaultRegistry repo.

(** The references this registry knows; every other string is refused the
    way [name.ParseReference] refuses a string with characters outside the
    repository alphabet. *)
Definition ParseReference (s : string) : option name.Reference * option error :=
  if String.eqb s "busybox:latest" then (Some (name.Tag (hub "busybox") "latest" s), None)
  else if String.eqb s "alpine:3" then (Some (name.Tag (hub "alpine") "3" s), None)
  else if String.eqb s "scratchy:1" then (Some (name.Tag (hub "scratchy") "1" s), None)
  else if String.eqb s "ghost:latest" then (Some (name.Tag (hub "ghost") "latest" s), None)
  else if String.eqb s "busybox@sha256:0f0f"
       then (Some (name.Digest (hub "busybox") "sha256:0f0f" s), None)
  else if String.eqb s "localhost:22500/img:test"
       then (Some (name.Tag (name.mkRepository "localhost:22500" "img") "test" s), None)
  else (None, Some (libError ("could not parse reference: " +:+ s))).

Definition remote_Image (ref : option name.Reference) (opts : list remote.Option) : Image + error :=
  match ref with
  | Some r =>
      let repo := name.repository (name.Context r) in
      if String.eqb repo "busybox" then inl busybox
      else if String.eqb repo "alpine" then inl alpine
      else if String.eqb repo "scratchy" then inl scratchy
      else inr (libError "MANIFEST_UNKNOWN")
  | None => inr (libError "no reference")
  end.

Definition describe (img : Image) : string :=
  String.concat "," (layers img) +:+ "|" +:+
  String.concat "," (map (fun kv => fst kv +:+ "=" +:+ snd kv) (map_to_list (annotations img))).

Definition Digest (img : Image) : v1.Hash * option error :=
  if broken img then (v1.zeroHash, Some (libError "manifest unreadable"))
  else (v1.mkHash "sha256" (describe img), None).

Definition AppendLayers (b : Image) (ls : list Layer) : Image + error :=
  match ls with
  | [] => inl b
  | _ => inl (mkImage (manifestMediaType b) (layers b ++ ls) (annotations b) false)
  end.

Definition Annotations (img : Image) (a : gmap string string) : Image :=
  mkImage (manifestMediaType img) (layers img) (a ∪ annotations img) false.

(** A clock that advances 400 ms between readings. *)
Definition clock (n : nat) : Z := (Z.of_nat n * 400000000)%Z.

Definition env (run : remote.WriteRun) (writerFirst : bool) : @Env Image Layer :=
  mkEnv ParseReference remote_Image (fun img => inl (manifestMediaType img)) Digest
        AppendLayers Annotations (fun _ _ _ => run) layers annotations clock writerFirst.

Definition world0 : @World Image := mkWorld [] [] 0 0.

Definition progress : list v1.Update :=
  [v1.mkUpdate 10 100 None; v1.mkUpdate 20 100 None; v1.mkUpdate 30 100 None;
   v1.mkUpdate 40 100 None; v1.mkUpdate 70 100 None; v1.mkUpdate 90 100 None;
   v1.mkUpdate 100 100 None].

Definition uploaded : remote.WriteRun := remote.WriteRuns progress true None.

Definition denied : error := libError "DENIED: requested access to the resource is denied".

Definition refused : remote.WriteRun :=
  remote.WriteRuns [v1.mkUpdate 10 100 None; v1.mkUpdate 0 0 (Some denied)] true (Some denied).

Definition config (base tag : string) (platforms : list string) : schema.ContainConfig :=
  schema.mkContainConfig base tag platforms.

(** The Appender [New] builds from a configuration whose base parses. *)
Definition appenderFor (base tag : string) (platforms : list string) : Appender :=
  mkAppender (config base tag platforms) (fst (ParseReference base)) (fst (ParseReference tag))
             "" "" (crane.mkOptions []).

Definition registry : @Env Image Layer := env uploaded false.

(** The same registry refusing the write. *)
Definition refusing : @Env Image Layer := env refused false.

Definition toLocal : Appender := appenderFor "busybox:latest" "localhost:22500/img:test" [].

(** The same registry handing out images whose media type cannot be read. *)
Definition unreadable : @Env Image Layer :=
  mkEnv ParseReference remote_Image (fun _ => inr (libError "unsupported MediaType")) Digest
        AppendLayers Annotations (fun _ _ _ => uploaded) layers annotations clock false.

(** The same registry, except that the media type of an image is lost once
    the image carries annotations. *)
Definition picky : @Env Image Layer :=
  mkEnv ParseReference remote_Image
        (fun img => if decide (annotations img = ∅) then inl (manifestMediaType img)
                    else inr (libError "unsupported MediaType"))
        Digest AppendLayers Annotations (fun _ _ _ => uploaded) layers annotations clock false.

(** A write that sends its updates and returns without closing the progress
    channel. *)
Definition unclosed : remote.WriteRun := remote.WriteRuns progress false None.

(** An image that was itself built on a base and says so in its manifest. *)
Definition derived : Image :=
  mkImage types.OCIManifestSchema1 ["alpine-rootfs"; "tools"]
          {[ specsv1.AnnotationBaseImageName := "/library/alpine:3" ]} false.

(** An Appender whose base is pinned by digest. *)
Definition pinned : Appender := appenderFor "busybox@sha256:0f0f" "localhost:22500/img:test" [].


(** A clock that stands still. *)
Definition frozen : @Env Image Layer :=
  mkEnv ParseReference remote_Image (fun img => inl (manifestMediaType img)) Digest
        AppendLayers Annotations (fun _ _ _ => uploaded) layers annotations (fun _ => 0%Z) false.

End Sample.

(** ** Properties *)

Ltac run :=
  cbv beta iota zeta delta
    [bind ret when ifErr log Fatal recordCall deref panic block receive time_Now appendEntry] in *;
  cbn [fst snd logged calls ticks lastRead] in *.

Ltac crunch1 :=
  cbv beta iota zeta delta
    [bind ret when ifErr log Fatal recordCall deref panic block receive time_Now appendEntry
     logEntry warned platformWarning withPlatforms underConfig
     set_config set_baseRef set_tagRef set_mediaType set_layerType
     config baseRef tagRef mediaType layerType craneOptions crane.Remote
     schema.Base schema.Tag schema.Platforms zap.level zap.message zap.fields negb];
  cbn [logged calls ticks lastRead fst snd length Nat.ltb Nat.eqb Nat.leb lookup list_lookup].

Ltac crunch := crunch1; crunch1.

Ltac push_msg := unfold fromPush, pushMessages; cbn; tauto.

Section Properties.

Context {Image Layer : Type}.
Variable E : @Env Image Layer.

Implicit Types (c : Appender) (w : @World Image).

(** *** Construction *)

Lemma New_spec config w b :
  fst (ParseReference E (schema.Base config)) = Some b ->
  exists c w',
    New E config w = (Ret (c, None), w') /\
    baseRef c = Some b /\
    tagRef c = fst (ParseReference E (schema.Tag config)) /\
    mediaType c = "" /\ layerType c = "" /\
    crane.Remote (craneOptions c) = [] /\
    appender.config c = config /\
    calls w' = calls w /\ ticks w' = ticks w /\
    (forall e, snd (ParseReference E (schema.Tag config)) = Some e ->
       In (zap.mkEntry zap.ErrorLevel "Failed to parse result image ref"
             [zap.String "ref" (schema.Tag config); zap.Error e])
          (map snd (logged w'))).
Proof.
  intros Hb. unfold New.
  destruct (ParseReference E (schema.Base config)) as [rb eb]. cbn in Hb. subst rb.
  destruct (ParseReference E (schema.Tag config)) as [rt et].
  destruct eb, et, rt; run; cbn;
    (eexists; eexists; split; [reflexivity|]); cbn; repeat split; try reflexivity;
    intros ? He; inversion He; subst;
    rewrite ?map_app; cbn; rewrite ?in_app_iff; cbn; tauto.
Qed.

(** A base string that does not parse leaves [c.baseRef] nil, and the debug
    entry's [c.baseRef.String()] is a nil dereference. *)
Lemma New_nil_base_panics config w :
  fst (ParseReference E (schema.Base config)) = None ->
  fst (New E config w) = Panic.
Proof.
  intros Hb. unfold New.
  destruct (ParseReference E (schema.Base config)) as [rb eb]. cbn in Hb. subst rb.
  destruct eb; reflexivity.
Qed.

(** *** Base resolution and the two states *)

Lemma base_resolves c w b mt :
  mediaType c = "" ->
  remote_Image E (baseRef c) (crane.Remote (craneOptions c)) = inl b ->
  MediaType E b = inl mt ->
  base E c w = (Ret (set_mediaType mt (set_layerType (layerTypeFor mt) c), inl b), pulled c w).
Proof.
  intros Hc Hpull Hmt. unfold base. rewrite Hc, Hpull, Hmt. run.
  unfold layerTypeFor. destruct (String.eqb mt types.OCIManifestSchema1); reflexivity.
Qed.

Lemma base_already_resolved c w :
  mediaType c <> "" ->
  base E c w = (Exit, appendEntry zap.FatalLevel "contain.Base() has already been invoked" [] w).
Proof.
  intros Hc. unfold base. apply String.eqb_neq in Hc. rewrite Hc. reflexivity.
Qed.





(** [Append] begins with at most one warning about the platform list and
    then calls [base]. *)
Lemma Append_already_resolved c (layers : list Layer) w :
  mediaType c <> "" ->
  fst (Append E c layers w) = Exit /\ calls (snd (Append E c layers w)) = calls w.
Proof.
  intros Hc. unfold Append.
  destruct (schema.Platforms (config c)) as [|p [|q r]]; run; cbn;
    rewrite base_already_resolved by assumption; cbn; auto.
Qed.

(** *** The drain loop *)

Lemma stamps_cons p te entries :
  stamps p (te :: entries) = if p (snd te) then fst te :: stamps p entries else stamps p entries.
Proof. unfold stamps. cbn. destruct (p (snd te)); reflexivity. Qed.

Lemma drain_log d sent closes :
  forall np errChan w,
  exists new,
    logged (snd (drain E d sent closes np errChan w)) = logged w ++ new /\
    calls (snd (drain E d sent closes np errChan w)) = calls w /\
    Forall fromPush new /\
    map snd (List.filter (fun te => isCompletionLine (snd te)) new)
      = map completionLine (List.filter isComplete (received sent)) /\
    (monotone_clock E -> (0 < d)%Z ->
       Forall (fun t => (np < t)%Z) (stamps isProgressLine new) /\
       StronglySorted (apart d) (stamps isProgressLine new)).
Proof.
  induction sent as [|u rest IH]; intros np errChan w; cbn [drain received].
  - exists []. rewrite app_nil_r. destruct closes; cbn; repeat split; auto; constructor.
  - destruct (v1.Error u) as [e|] eqn:He.
    + run. eexists. split; [reflexivity|]. cbn.
      repeat split; auto; try solve [constructor].
      constructor; [push_msg | constructor].
    + cbn [List.filter]. unfold isComplete at 1.
      destruct (v1.Complete u =? v1.Total u)%Z eqn:Hdone.
      * run.
        match goal with |- context [drain E d rest closes ?np' ?ec ?w'] =>
          destruct (IH np' ec w') as (new & Hlog & Hcalls & Hfrom & Hcompl & Hprog) end.
        exists ((lastRead w, completionLine u) :: new).
        rewrite Hlog, Hcalls. cbn -[stamps]. rewrite <- app_assoc. cbn -[stamps].
        split; [reflexivity|]. split; [reflexivity|]. split; [|split].
        -- constructor; [push_msg | assumption].
        -- f_equal. assumption.
        -- rewrite stamps_cons. cbn. exact Hprog.
      * run.
        destruct (np <? clock E (ticks w))%Z eqn:Hgate.
        -- run.
           match goal with |- context [drain E d rest closes ?np' ?ec ?w'] =>
             destruct (IH np' ec w') as (new & Hlog & Hcalls & Hfrom & Hcompl & Hprog) end.
           exists ((clock E (S (ticks w)),
                    zap.mkEntry zap.InfoLevel "push" (completionFields u)) :: new).
           rewrite Hlog, Hcalls. cbn -[stamps]. rewrite <- app_assoc. cbn -[stamps].
           split; [reflexivity|]. split; [reflexivity|]. split; [|split].
           ++ constructor; [push_msg | assumption].
           ++ assumption.
           ++ intros Hmono Hd. destruct (Hprog Hmono Hd) as [Hall Hsorted].
              rewrite stamps_cons. cbn.
              apply Z.ltb_lt in Hgate.
              pose proof (Hmono (ticks w) (S (ticks w)) (Nat.le_succ_diag_r _)) as Hle.
              split.
              ** constructor; [lia|].
                 eapply List.Forall_impl; [|exact Hall]. cbn. intros t Ht. lia.
              ** constructor; assumption.
        -- run.
           match goal with |- context [drain E d rest closes ?np' ?ec ?w'] =>
             destruct (IH np' ec w') as (new & Hlog & Hcalls & Hfrom & Hcompl & Hprog) end.
           exists new. rewrite Hlog, Hcalls. cbn -[stamps].
           split; [reflexivity|]. split; [reflexivity|]. split; [|split]; assumption.
Qed.

Lemma forwarded_first sent :
  forwarded sent = [] \/
  exists u e, In u sent /\ v1.Error u = Some e /\ forwarded sent = [Some e].
Proof.
  induction sent as [|u rest IH]; cbn; [left; reflexivity|].
  destruct (v1.Error u) as [e|] eqn:He.
  - right. exists u, e. auto.
  - destruct IH as [IH|(u' & e & Hin & Hu' & IH)]; [left; assumption|].
    right. exists u', e. auto.
Qed.

(** How the loop ends: with the first error forwarded onto [errChan], or at
    the close of the channel with [errChan] untouched, or never. *)
Lemma drain_outcome d sent closes :
  forall np errChan w,
    match fst (drain E d sent closes np errChan w) with
    | Ret (_, errChan') => errChan' = errChan ++ forwarded sent /\ drainEnds sent closes
    | Blocked => closes = false /\ forwarded sent = []
    | _ => False
    end.
Proof.
  induction sent as [|u rest IH]; intros np errChan w; cbn [drain forwarded].
  - destruct closes; cbn.
    + split; [symmetry; apply app_nil_r | left; reflexivity].
    + auto.
  - unfold drainEnds. cbn [forwarded]. destruct (v1.Error u) as [e|] eqn:He.
    + run. split; [reflexivity | right; discriminate].
    + destruct (v1.Complete u =? v1.Total u)%Z; run.
      * apply IH.
      * destruct (np <? clock E (ticks w))%Z; run; apply IH.
Qed.

Lemma drain_ends d sent closes np errChan w :
  drainEnds sent closes ->
  exists np', fst (drain E d sent closes np errChan w) = Ret (np', errChan ++ forwarded sent).
Proof.
  intros Hends. pose proof (drain_outcome d sent closes np errChan w) as H.
  destruct (fst (drain E d sent closes np errChan w)) as [[np' ec]| | |]; try contradiction.
  - destruct H as [-> _]. eauto.
  - destruct H as [Hc Hf]. destruct Hends; congruence.
Qed.

(** Stamps pairwise more than [width] apart: no window of that width holds
    two of them. *)
Lemma apart_window width ts :
  (0 <= width)%Z ->
  StronglySorted (apart width) ts ->
  forall from, length (List.filter (inWindow from width) ts) <= 1.
Proof.
  intros Hw Hsorted from. induction Hsorted as [|t ts Hts IH Hall]; cbn; [lia|].
  destruct (inWindow from width t) eqn:Ht; [|assumption].
  assert (List.filter (inWindow from width) ts = []) as ->; [|cbn; lia].
  clear IH Hts. induction ts as [|t' ts IH']; cbn; [reflexivity|].
  inversion Hall as [|? ? Ht' Hall']; subst.
  assert (inWindow from width t' = false) as ->; [|apply IH'; assumption].
  unfold inWindow, apart in *.
  apply andb_true_iff in Ht. destruct Ht as [H1 H2].
  apply Z.leb_le in H1, H2.
  apply andb_false_iff. right. apply Z.leb_gt. lia.
Qed.

(** *** push *)

Lemma push_runs c image w mt sent closes returned :
  MediaType E image = inl mt ->
  remote_Write E (tagRef c) image (writeOptions c) = remote.WriteRuns sent closes returned ->
  push E c image w =
    bind (drain E second sent closes (clock E (ticks w) + second)
                (if writerFirst E then [returned] else []))
         (fun r => receive (if writerFirst E then snd r else snd r ++ [returned]))
         (started E c image mt w).
Proof.
  intros Hmt Hrun. unfold push. rewrite Hmt.
  change (time_ParseDuration progressReportMinInterval) with (second, @None error).
  fold (writeOptions c). rewrite Hrun. unfold started. run.
  destruct (drain E second sent closes (clock E (ticks w) + second)
              (if writerFirst E then [returned] else []) _) as [[[np ec]| | |] w'];
    reflexivity.
Qed.

(** [push] returns the first value to arrive on [errChan]. *)
Lemma push_outcome c image w mt sent closes returned :
  MediaType E image = inl mt ->
  remote_Write E (tagRef c) image (writeOptions c) = remote.WriteRuns sent closes returned ->
  drainEnds sent closes ->
  exists v, head (sentOnErrChan E sent returned) = Some v /\ fst (push E c image w) = Ret v.
Proof.
  intros Hmt Hrun Hends. rewrite (push_runs _ _ _ _ _ _ _ Hmt Hrun).
  unfold bind, sentOnErrChan.
  destruct (drain_ends second sent closes (clock E (ticks w) + second)
              (if writerFirst E then [returned] else []) (started E c image mt w) Hends)
    as [np' Hd].
  destruct (drain E second sent closes _ _ _) as [o w'] eqn:Hdrain. cbn in Hd. subst o.
  cbn [snd]. destruct (writerFirst E); cbn.
  - eauto.
  - destruct (forwarded sent) as [|v rest]; cbn; eauto.
Qed.

(** What [push] adds to the log and to the registry calls, however it ends. *)
Lemma push_frame c image w :
  exists new,
    logged (snd (push E c image w)) = logged w ++ new /\
    Forall fromPush new /\
    (calls (snd (push E c image w)) = calls w \/
     calls (snd (push E c image w)) = calls w ++ [WriteCall (tagRef c) image (writeOptions c)]).
Proof.
  destruct (MediaType E image) as [mt|err] eqn:Hmt.
  - destruct (remote_Write E (tagRef c) image (writeOptions c)) as [|sent closes returned] eqn:Hrun.
    + unfold push. rewrite Hmt.
      change (time_ParseDuration progressReportMinInterval) with (second, @None error).
      fold (writeOptions c). rewrite Hrun. run.
      eexists. split; [reflexivity|]. split; [|right; reflexivity].
      constructor; [push_msg | constructor].
    + rewrite (push_runs _ _ _ _ _ _ _ Hmt Hrun). unfold bind.
      destruct (drain_log second sent closes (clock E (ticks w) + second)
                  (if writerFirst E then [returned] else []) (started E c image mt w))
        as (new & Hlog & Hcalls & Hfrom & _).
      destruct (drain E second sent closes _ _ _) as [[[np ec]| | |] w'];
        cbn [snd] in *;
        (exists ((lastRead w, zap.mkEntry zap.InfoLevel "pushing" [zap.String "mediaType" mt]) :: new));
        try (destruct (if writerFirst E then ec else ec ++ [returned]); run);
        rewrite Hlog, Hcalls; cbn; rewrite <- app_assoc; cbn;
        (split; [reflexivity|]); (split; [|right; reflexivity]);
        (constructor; [push_msg | assumption]).
  - unfold push. rewrite Hmt. run. exists []. rewrite app_nil_r. auto.
Qed.

(** The lines of one push: a completion line for each update received with
    [Complete = Total], whatever the clock says, and, when the clock is
    monotone, progress lines stamped more than a second after the reading
    taken before the loop and more than a second apart. *)
Lemma push_lines c image w mt sent closes returned :
  MediaType E image = inl mt ->
  remote_Write E (tagRef c) image (writeOptions c) = remote.WriteRuns sent closes returned ->
  exists new,
    logged (snd (push E c image w)) = logged w ++ new /\
    map snd (List.filter (fun te => isCompletionLine (snd te)) new)
      = map completionLine (List.filter isComplete (received sent)) /\
    (monotone_clock E ->
       Forall (fun t => (clock E (ticks w) + second < t)%Z) (stamps isProgressLine new) /\
       StronglySorted (apart second) (stamps isProgressLine new)).
Proof.
  intros Hmt Hrun. rewrite (push_runs _ _ _ _ _ _ _ Hmt Hrun). unfold bind.
  destruct (drain_log second sent closes (clock E (ticks w) + second)
              (if writerFirst E then [returned] else []) (started E c image mt w))
    as (new & Hlog & Hcalls & Hfrom & Hcompl & Hprog).
  exists ((lastRead w, zap.mkEntry zap.InfoLevel "pushing" [zap.String "mediaType" mt]) :: new).
  split; [|split].
  - destruct (drain E second sent closes _ _ _) as [[[np ec]| | |] w'];
      cbn [snd] in *;
      try (destruct (if writerFirst E then ec else ec ++ [returned]); run);
      rewrite Hlog; cbn; rewrite <- app_assoc; reflexivity.
  - cbn. assumption.
  - intros Hmono. rewrite stamps_cons. cbn -[stamps]. apply Hprog; [assumption|reflexivity].
Qed.

(** *** Append *)


Lemma annotate_resolved c mt img d : annotate E (resolved c mt) img d = annotate E c img d.
Proof. reflexivity. Qed.

Lemma Append_prologue c (layers : list Layer) w b mt :
  mediaType c = "" ->
  remote_Image E (baseRef c) (crane.Remote (craneOptions c)) = inl b ->
  MediaType E b = inl mt ->
  Append E c layers w =
    match mutate_AppendLayers E b layers with
    | inr err =>
        (Ret (resolved c mt, (v1.zeroHash, Some err)),
         appendEntry zap.ErrorLevel "Failed to append layers" [zap.Error err] (assembling E c b w))
    | inl img =>
        match Digest E (annotated E c b img) with
        | (_, Some e) =>
            (Ret (resolved c mt, (v1.zeroHash, Some e)),
             appendEntry zap.ErrorLevel "Failed to get result image digest" [zap.Error e]
                         (assembling E c b w))
        | (h, None) =>
            bind (push E (resolved c mt) (annotated E c b img))
              (fun err =>
                 match err with
                 | Some e =>
                     bind (log zap.ErrorLevel "Failed to push" [zap.Error e])
                          (fun _ => ret (resolved c mt, (v1.zeroHash, Some e)))
                 | None =>
                     bind (log zap.InfoLevel "pushed" [zap.String "digest" (v1.Hash_String h)])
                          (fun _ => ret (resolved c mt, (h, None)))
                 end)
              (assembling E c b w)
        end
    end.
Proof.
  intros Hc Hpull Hmt.
  destruct c as [[bs t platforms] bref tref m lt [opts]]. cbn in Hc, Hpull. subst m.
  unfold Append, base, push, annotated, annotate, assembling, digestChecked, pulled, resolved,
    layerTypeFor.
  change (time_ParseDuration progressReportMinInterval) with (second, @None error).
  rewrite String.eqb_refl.
  destruct platforms as [|p [|q r]]; crunch.
  all: rewrite Hpull; crunch; rewrite Hmt; crunch.
  all: destruct (String.eqb mt types.OCIManifestSchema1); crunch.
  all: destruct (Digest E b) as [d [e|]]; crunch.
  all: destruct (mutate_AppendLayers E b layers) as [img'|err]; crunch; try reflexivity.
  all: match goal with |- context [Digest E ?i] => destruct (Digest E i) as [h [e'|]] end; crunch;
       try reflexivity.
  all: match goal with |- context [MediaType E ?i] => destruct (MediaType E i) as [m'|err'] end;
       crunch; try reflexivity.
  all: match goal with |- context [remote_Write E ?r ?i ?o] =>
         destruct (remote_Write E r i o) as [|sent closes returned] end; crunch; try reflexivity.
  all: match goal with |- context [drain E ?d ?s ?cl ?n ?ec ?w'] =>
         destruct (drain E d s cl n ec w') as [[[np ec']| | |] w''] end; crunch; try reflexivity.
  all: match goal with |- context [if writerFirst E then ?a else ?b] =>
         destruct (if writerFirst E then a else b) as [|[e''|] rest] end; reflexivity.
Qed.


Lemma assembling_frame c b w :
  exists new,
    logged (assembling E c b w) = logged w ++ new /\
    Forall notAppendFailure new /\
    calls (assembling E c b w) = calls w ++ [ImageCall (baseRef c) (crane.Remote (craneOptions c))].
Proof.
  unfold assembling, digestChecked, pulled, warned, platformWarning, logEntry.
  destruct (schema.Platforms (config c)) as [|p [|q r]];
    destruct (snd (Digest E b)) as [e|]; cbn; rewrite <- ?app_assoc;
    first [ eexists; split; [reflexivity|]
          | exists []; split; [symmetry; apply app_nil_r|] ];
    (split; [|reflexivity]);
    repeat (apply List.Forall_cons; [unfold notAppendFailure; cbn; discriminate|]);
    apply List.Forall_nil.
Qed.


Lemma received_all sent :
  Forall (fun u => v1.Error u = None) sent -> received sent = sent.
Proof.
  induction 1 as [|u rest Hu _ IH]; cbn; [reflexivity|]. rewrite Hu, IH. reflexivity.
Qed.

(** The result channel has room for every send: at most two values are
    ever sent on it. *)
Lemma sentOnErrChan_fits sent returned :
  length (sentOnErrChan E sent returned) <= 2.
Proof.
  unfold sentOnErrChan.
  destruct (forwarded_first sent) as [->|(u & e & _ & _ & ->)]; destruct (writerFirst E); cbn; lia.
Qed.

(** The first value on [errChan] is what the write returned or the error of
    an update it sent. *)
Lemma first_on_errChan_origin sent returned v :
  head (sentOnErrChan E sent returned) = Some v ->
  v = returned \/ exists u e, In u sent /\ v1.Error u = Some e /\ v = Some e.
Proof.
  unfold sentOnErrChan.
  destruct (writerFirst E); cbn; [intros H; left; congruence|].
  destruct (forwarded_first sent) as [->|(u & e & Hin & Hu & ->)]; cbn; intros H.
  - left. congruence.
  - right. exists u, e. repeat split; [assumption | assumption | congruence].
Qed.

(** When error updates carry the error [remote.Write] returns, the first
    value on [errChan] is that error whichever send lands first. *)
Lemma first_on_errChan sent returned :
  write_contract sent returned ->
  head (sentOnErrChan E sent returned) = Some returned.
Proof.
  intros Hcontract. unfold sentOnErrChan.
  destruct (writerFirst E); [reflexivity|].
  destruct (forwarded_first sent) as [->|(u & e & Hin & Hu & ->)]; [reflexivity|].
  cbn. rewrite (Hcontract u e Hin Hu). reflexivity.
Qed.

Lemma forwarded_none sent :
  Forall (fun u => v1.Error u = None) sent -> forwarded sent = [].
Proof.
  induction 1 as [|u rest Hu _ IH]; cbn; [reflexivity|]. rewrite Hu. assumption.
Qed.

(** A pull that fails is reported with the reference for context, and the
    receiver stays unresolved. *)
Lemma base_wraps_pull_error c w r err :
  mediaType c = "" ->
  baseRef c = Some r ->
  remote_Image E (baseRef c) (crane.Remote (craneOptions c)) = inr err ->
  base E c w = (Ret (c, inr (wrapError ("pulling " +:+ name.String r) err)), pulled c w).
Proof.
  intros Hc Hr Hpull. unfold base, pulled. rewrite Hc, Hpull, Hr. reflexivity.
Qed.

(** An error of the base image's [Digest()] does not stop [Append]: it is
    logged, the hash that came with it goes into the annotation, and when
    the rest succeeds [Append] returns the result digest and a nil error. *)
Lemma Append_carries_on_after_base_digest_error
    c (layers : list Layer) w b mt d e img h mt' sent :
  mediaType c = "" ->
  remote_Image E (baseRef c) (crane.Remote (craneOptions c)) = inl b ->
  MediaType E b = inl mt ->
  Digest E b = (d, Some e) ->
  mutate_AppendLayers E b layers = inl img ->
  Digest E (annotate E c img d) = (h, None) ->
  MediaType E (annotate E c img d) = inl mt' ->
  remote_Write E (tagRef c) (annotate E c img d) (writeOptions c)
    = remote.WriteRuns sent true None ->
  Forall (fun u => v1.Error u = None) sent ->
  fst (Append E c layers w) = Ret (resolved c mt, (h, None)) /\
  In (zap.mkEntry zap.ErrorLevel "Failed to get base image digest" [zap.Error e])
     (map snd (logged (assembling E c b w))).
Proof.
  intros Hc Hpull Hmt Hd Himg Hh Hmt' Hrun Hok.
  assert (annotated E c b img = annotate E c img d) as Hann
    by (unfold annotated; rewrite Hd; reflexivity).
  split.
  - rewrite (Append_prologue c layers w b mt Hc Hpull Hmt), Himg, Hann, Hh.
    destruct (push_outcome (resolved c mt) (annotate E c img d) (assembling E c b w)
                mt' sent true None Hmt' Hrun (or_introl eq_refl)) as (v & Hv & Hpush).
    unfold sentOnErrChan in Hv. rewrite (forwarded_none sent Hok) in Hv.
    assert (v = None) as -> by (destruct (writerFirst E); cbn in Hv; congruence).
    unfold bind.
    destruct (push E (resolved c mt) (annotate E c img d) (assembling E c b w)) as [o w1].
    cbn in Hpush. subst o. reflexivity.
  - unfold assembling, digestChecked. rewrite Hd. cbn.
    rewrite map_app, in_app_iff. right. cbn. auto.
Qed.



(** ** The claims *)

(** C1 (as amended).  [New] never returns an error.  When the base string
    parses, it returns the Appender with a nil error whether or not the
    destination string parses: a destination that does not parse is logged
    at error level with message [Failed to parse result image ref],
    [tagRef] stays nil, and no registry call is made. *)
Theorem New_logs_and_returns_nil config w b :
  fst (ParseReference E (schema.Base config)) = Some b ->
  exists c w',
    New E config w = (Ret (c, None), w') /\
    baseRef c = Some b /\
    tagRef c = fst (ParseReference E (schema.Tag config)) /\
    calls w' = calls w /\
    (forall e, snd (ParseReference E (schema.Tag config)) = Some e ->
       In (zap.mkEntry zap.ErrorLevel "Failed to parse result image ref"
             [zap.String "ref" (schema.Tag config); zap.Error e])
          (map snd (logged w'))).
Proof.
  intros Hb.
  destruct (New_spec config w b Hb)
    as (c & w' & Hnew & Hbase & Htag & _ & _ & _ & _ & Hcalls & _ & Hlog).
  exists c, w'. auto.
Qed.

(** C3.  When the registry answers the pull with an image whose media type
    can be read, [base] returns that image, stores the media type, and sets
    [layerType] to the OCI layer type exactly when the media type is the OCI
    manifest type, and to the Docker layer type otherwise. *)
Theorem base_fixes_layerType c w b mt :
  mediaType c = "" ->
  remote_Image E (baseRef c) (crane.Remote (craneOptions c)) = inl b ->
  MediaType E b = inl mt ->
  exists c' w',
    base E c w = (Ret (c', inl b), w') /\
    mediaType c' = mt /\
    (layerType c' = types.OCILayer <-> mt = types.OCIManifestSchema1) /\
    (mt <> types.OCIManifestSchema1 -> layerType c' = types.DockerLayer).
Proof.
  intros Hc Hpull Hmt.
  exists (resolved c mt), (pulled c w).
  split; [apply base_resolves; assumption|].
  split; [reflexivity|].
  cbn [resolved layerType set_mediaType set_layerType]. unfold layerTypeFor.
  destruct (String.eqb_spec mt types.OCIManifestSchema1) as [Heq|Hne].
  - split; [tauto | intros Hn; contradiction].
  - split; [split; [discriminate | contradiction] | reflexivity].
Qed.

(** The map [annotate] builds.  [annotate] returns what [mutate.Annotations]
    makes of the image and a map that always binds the base-image-digest key to the string
    form of the base digest, binds the base-image-name key to
    [/<repository>:<tag>] when the base reference is a tag, has no
    base-image-name key otherwise, and has no other key. *)
Theorem annotate_sets_provenance c image baseDigest :
  exists a : gmap string string,
    annotate E c image baseDigest = mutate_Annotations E image a /\
    a !! specsv1.AnnotationBaseImageDigest = Some (v1.Hash_String baseDigest) /\
    (forall repo tag original, baseRef c = Some (name.Tag repo tag original) ->
       a !! specsv1.AnnotationBaseImageName
         = Some ("/" +:+ name.RepositoryStr repo +:+ ":" +:+ tag)) /\
    (is_Some (a !! specsv1.AnnotationBaseImageName) <-> name.isTag (baseRef c) = true) /\
    (forall k, is_Some (a !! k) ->
       k = specsv1.AnnotationBaseImageDigest \/ k = specsv1.AnnotationBaseImageName).
Proof.
  unfold annotate.
  destruct (baseRef c) as [[repo tag orig|repo digest orig]|] eqn:Href; eexists;
    (split; [reflexivity|]).
  - split; [rewrite lookup_insert_ne by discriminate; apply lookup_singleton_eq|].
    split; [intros repo' tag' orig' H; inversion H; subst; apply lookup_insert_eq|].
    split; [rewrite lookup_insert_eq; cbn; split; eauto|].
    intros k Hk. destruct (decide (k = specsv1.AnnotationBaseImageName)) as [|Hn]; [auto|].
    rewrite lookup_insert_ne in Hk by congruence.
    destruct (decide (k = specsv1.AnnotationBaseImageDigest)) as [|Hd]; [auto|].
    rewrite lookup_singleton_ne in Hk by congruence. destruct Hk; discriminate.
  - split; [apply lookup_singleton_eq|].
    split; [intros repo' tag' orig' H; discriminate|].
    split; [rewrite lookup_singleton_ne by discriminate; cbn; split;
            [intros [x Hx]; discriminate | discriminate]|].
    intros k Hk. destruct (decide (k = specsv1.AnnotationBaseImageDigest)) as [|Hd]; [auto|].
    rewrite lookup_singleton_ne in Hk by congruence. destruct Hk; discriminate.
  - split; [apply lookup_singleton_eq|].
    split; [intros repo' tag' orig' H; discriminate|].
    split; [rewrite lookup_singleton_ne by discriminate; cbn; split;
            [intros [x Hx]; discriminate | discriminate]|].
    intros k Hk. destruct (decide (k = specsv1.AnnotationBaseImageDigest)) as [|Hd]; [auto|].
    rewrite lookup_singleton_ne in Hk by congruence. destruct Hk; discriminate.
Qed.

(** C4 (as amended).  [mutate.Annotations] merging the map it is given over
    the annotations of the manifest, the image [annotate] returns always
    carries the base-image-digest annotation with the string form of the
    base digest; it carries the base-image-name annotation
    [/<repository>:<tag>] when the base reference is a tag; when the base
    reference is not a tag, [annotate] sets no base-image-name annotation
    and the returned image has that annotation exactly as the input image
    had it.  Every other annotation is the input image's. *)
Theorem annotate_provenance_on_image c image baseDigest :
  (forall img a, ManifestAnnotations E (mutate_Annotations E img a) = a ∪ ManifestAnnotations E img) ->
  ManifestAnnotations E (annotate E c image baseDigest) !! specsv1.AnnotationBaseImageDigest
    = Some (v1.Hash_String baseDigest) /\
  (forall repo tag original, baseRef c = Some (name.Tag repo tag original) ->
     ManifestAnnotations E (annotate E c image baseDigest) !! specsv1.AnnotationBaseImageName
       = Some ("/" +:+ name.RepositoryStr repo +:+ ":" +:+ tag)) /\
  (name.isTag (baseRef c) = false ->
     ManifestAnnotations E (annotate E c image baseDigest) !! specsv1.AnnotationBaseImageName
       = ManifestAnnotations E image !! specsv1.AnnotationBaseImageName) /\
  (forall k, k <> specsv1.AnnotationBaseImageDigest -> k <> specsv1.AnnotationBaseImageName ->
     ManifestAnnotations E (annotate E c image baseDigest) !! k = ManifestAnnotations E image !! k) /\
  (exists a : gmap string string,
     annotate E c image baseDigest = mutate_Annotations E image a /\
     (is_Some (a !! specsv1.AnnotationBaseImageName) <-> name.isTag (baseRef c) = true)).
Proof.
  intros Hmerge.
  destruct (annotate_sets_provenance c image baseDigest)
    as (a & Heq & Hdigest & Hname & Hiff & Hkeys).
  rewrite Heq, Hmerge.
  split; [apply lookup_union_Some_l; assumption|].
  split; [intros repo tag original Href; apply lookup_union_Some_l; eauto|].
  split.
  - intros Hnot. apply lookup_union_r.
    destruct (a !! specsv1.AnnotationBaseImageName) as [x|] eqn:Hx; [|reflexivity].
    assert (name.isTag (baseRef c) = true) by (apply Hiff; eauto). congruence.
  - split.
    + intros k Hd Hn. apply lookup_union_r.
      destruct (a !! k) as [x|] eqn:Hx; [|reflexivity].
      destruct (Hkeys k) as [?|?]; [eauto | contradiction | contradiction].
    + exists a. auto.
Qed.


(** C10.  [Options] logs the fatal entry [TODO how?] and the process exits,
    whatever the Appender and the state of the process; it never returns. *)
Theorem Options_is_fatal c w :
  Options c w = (Exit, appendEntry zap.FatalLevel "TODO how?" [] w) /\
  ~ (exists r w', Options c w = (Ret r, w')).
Proof.
  split; [reflexivity|]. intros (r & w' & H). discriminate.
Qed.

(** C2.  For an [Append] that gets as far as the registry write and whose
    drain loop ends: [push] returns the first value sent on the result
    channel, and that value is the outcome of [Append], which reports it when
    it is an error and returns the digest computed for the annotated image
    when it is nil.  The value comes from the registry write: it is what
    [remote.Write] returned or the error of an update the write sent, and
    these are the same error when the write keeps its contract. *)
Theorem Append_reports_write_outcome c (layers : list Layer) w b mt img h mt' sent closes returned :
  mediaType c = "" ->
  remote_Image E (baseRef c) (crane.Remote (craneOptions c)) = inl b ->
  MediaType E b = inl mt ->
  mutate_AppendLayers E b layers = inl img ->
  Digest E (annotated E c b img) = (h, None) ->
  MediaType E (annotated E c b img) = inl mt' ->
  remote_Write E (tagRef c) (annotated E c b img) (writeOptions c)
    = remote.WriteRuns sent closes returned ->
  drainEnds sent closes ->
  exists v,
    head (sentOnErrChan E sent returned) = Some v /\
    fst (push E (resolved c mt) (annotated E c b img) (assembling E c b w)) = Ret v /\
    fst (Append E c layers w) =
      Ret (resolved c mt,
           match v with
           | None => (h, None)
           | Some e => (v1.zeroHash, Some e)
           end) /\
    (v = returned \/ exists u e, In u sent /\ v1.Error u = Some e /\ v = Some e) /\
    (write_contract sent returned -> v = returned).
Proof.
  intros Hc Hpull Hmt Himg Hdigest Hmt' Hrun Hends.
  destruct (push_outcome (resolved c mt) (annotated E c b img) (assembling E c b w)
              mt' sent closes returned Hmt' Hrun Hends) as (v & Hv & Hpush).
  exists v. split; [assumption|]. split; [assumption|]. split; [|split].
  - rewrite (Append_prologue c layers w b mt Hc Hpull Hmt), Himg, Hdigest.
    unfold bind.
    destruct (push E (resolved c mt) (annotated E c b img) (assembling E c b w)) as [o w1].
    cbn in Hpush. subst o. destruct v; reflexivity.
  - apply first_on_errChan_origin. assumption.
  - intros Hcontract. pose proof (first_on_errChan sent returned Hcontract). congruence.
Qed.

(** C7.  For a push whose updates carry no error, the log gains exactly one
    completion line for each update with [Complete = Total], in order and
    whatever the clock reads; and, the clock being monotone, the progress
    lines are stamped more than one second after the reading taken before
    the loop and more than one second apart (each sets the next allowed time
    one second after its own reading), so no window of one second holds two
    of them. *)
Theorem push_progress_debounced c image w mt sent closes returned :
  Forall (fun u => v1.Error u = None) sent ->
  MediaType E image = inl mt ->
  remote_Write E (tagRef c) image (writeOptions c) = remote.WriteRuns sent closes returned ->
  exists new,
    logged (snd (push E c image w)) = logged w ++ new /\
    map snd (List.filter (fun te => isCompletionLine (snd te)) new)
      = map completionLine (List.filter isComplete sent) /\
    (monotone_clock E ->
       Forall (fun t => (clock E (ticks w) + second < t)%Z) (stamps isProgressLine new) /\
       StronglySorted (apart second) (stamps isProgressLine new) /\
       forall from, length (List.filter (inWindow from second) (stamps isProgressLine new)) <= 1).
Proof.
  intros Hok Hmt Hrun.
  destruct (push_lines c image w mt sent closes returned Hmt Hrun)
    as (new & Hlog & Hcompl & Hprog).
  exists new. rewrite (received_all sent Hok) in Hcompl.
  split; [assumption|]. split; [assumption|].
  intros Hmono. destruct (Hprog Hmono) as [Hafter Hsorted].
  split; [assumption|]. split; [assumption|].
  apply apart_window; [unfold second; lia | assumption].
Qed.



End Properties.

(** ** The sample registry keeps the contracts *)

Lemma Sample_clock_monotone run first : monotone_clock (Sample.env run first).
Proof.
  unfold monotone_clock, Sample.env, Sample.clock. cbn. intros i j Hij. lia.
Qed.


Lemma Sample_refused_contract :
  write_contract [v1.mkUpdate 10 100 None; v1.mkUpdate 0 0 (Some Sample.denied)]
                 (Some Sample.denied).
Proof.
  intros u e [<-|[<-|[]]] He; cbn in He; congruence.
Qed.

(** [New] on a configuration the sample registry can parse. *)
Example New_busybox :
  fst (New Sample.registry
         (Sample.config "busybox:latest" "localhost:22500/img:test" ["linux/amd64"])
         Sample.world0)
  = Ret (Sample.appenderFor "busybox:latest" "localhost:22500/img:test" ["linux/amd64"], None).
Proof. reflexivity. Qed.

(** ** The claims on the sample registry *)

(** C1, as stated, fails: the destination does not parse, and [New] returns
    the Appender with a nil error and a nil [tagRef]. *)
Lemma New_accepts_malformed_destination :
  ParseReference Sample.registry "not a valid ref!"
    = (None, Some (libError "could not parse reference: not a valid ref!")) /\
  fst (New Sample.registry (Sample.config "busybox:latest" "not a valid ref!" []) Sample.world0)
    = Ret (Sample.appenderFor "busybox:latest" "not a valid ref!" [], None) /\
  tagRef (Sample.appenderFor "busybox:latest" "not a valid ref!" []) = None.
Proof. repeat split. Qed.

Lemma New_logs_and_returns_nil_witness :
  exists c w',
    New Sample.registry (Sample.config "busybox:latest" "not a valid ref!" []) Sample.world0
      = (Ret (c, None), w') /\
    tagRef c = None /\
    In (zap.mkEntry zap.ErrorLevel "Failed to parse result image ref"
          [zap.String "ref" "not a valid ref!";
           zap.Error (libError "could not parse reference: not a valid ref!")])
       (map snd (logged w')).
Proof.
  destruct (New_logs_and_returns_nil Sample.registry
              (Sample.config "busybox:latest" "not a valid ref!" []) Sample.world0
              (name.Tag (Sample.hub "busybox") "latest" "busybox:latest") eq_refl)
    as (c & w' & Hnew & _ & Htag & _ & Hlog).
  exists c, w'. split; [exact Hnew|]. split; [exact Htag|].
  apply Hlog. reflexivity.
Defined.

Lemma base_fixes_layerType_witness :
  exists c' w',
    base Sample.registry (Sample.appenderFor "alpine:3" "localhost:22500/img:test" []) Sample.world0
      = (Ret (c', inl Sample.alpine), w') /\
    layerType c' = types.OCILayer.
Proof.
  destruct (base_fixes_layerType Sample.registry
              (Sample.appenderFor "alpine:3" "localhost:22500/img:test" []) Sample.world0
              Sample.alpine types.OCIManifestSchema1 eq_refl eq_refl eq_refl)
    as (c' & w' & Hbase & _ & Hiff & _).
  exists c', w'. split; [exact Hbase|]. apply Hiff. reflexivity.
Defined.

Lemma Append_reports_write_outcome_witness :
  fst (Append Sample.refusing Sample.toLocal ["app-layer"] Sample.world0)
    = Ret (resolved Sample.toLocal Sample.DockerManifestSchema2,
           (v1.zeroHash, Some Sample.denied)).
Proof.
  destruct (Append_reports_write_outcome Sample.refusing Sample.toLocal ["app-layer"]
              Sample.world0 Sample.busybox Sample.DockerManifestSchema2 _ _ _
              [v1.mkUpdate 10 100 None; v1.mkUpdate 0 0 (Some Sample.denied)] true
              (Some Sample.denied)
              eq_refl eq_refl eq_refl eq_refl eq_refl eq_refl eq_refl
              (or_introl eq_refl))
    as (v & _ & _ & Happend & _ & Hcontract).
  rewrite Happend, (Hcontract Sample_refused_contract). reflexivity.
Defined.


Lemma push_progress_debounced_witness :
  map snd (List.filter (fun te => isCompletionLine (snd te))
             (logged (snd (push Sample.registry Sample.toLocal Sample.busybox Sample.world0))))
    = [completionLine (v1.mkUpdate 100 100 None)] /\
  length (List.filter (inWindow 1600000000 second)
            (stamps isProgressLine
               (logged (snd (push Sample.registry Sample.toLocal Sample.busybox Sample.world0)))))
    <= 1.
Proof.
  destruct (push_progress_debounced Sample.registry Sample.toLocal Sample.busybox Sample.world0
              Sample.DockerManifestSchema2 Sample.progress true None
              ltac:(repeat constructor) eq_refl eq_refl)
    as (new & Hlog & Hcompl & Hprog).
  rewrite Hlog. cbn [logged Sample.world0 app]. split.
  - exact Hcompl.
  - apply Hprog. apply Sample_clock_monotone.
Defined.



(** C4, as stated, fails: the base is pinned by digest, the image handed to
    [annotate] already carries a base-image-name annotation, and the image
    [annotate] returns still carries it. *)
Lemma annotate_keeps_stale_base_name :
  name.isTag (baseRef Sample.pinned) = false /\
  ManifestAnnotations Sample.registry Sample.derived !! specsv1.AnnotationBaseImageName
    = Some "/library/alpine:3" /\
  ManifestAnnotations Sample.registry
      (annotate Sample.registry Sample.pinned Sample.derived (v1.mkHash "sha256" "0f0f"))
    !! specsv1.AnnotationBaseImageName
    = Some "/library/alpine:3".
Proof. repeat split; vm_compute; reflexivity. Qed.

Lemma annotate_provenance_on_image_witness :
  ManifestAnnotations Sample.registry
      (annotate Sample.registry Sample.pinned Sample.derived (v1.mkHash "sha256" "0f0f"))
    !! specsv1.AnnotationBaseImageDigest
    = Some "sha256:0f0f" /\
  ManifestAnnotations Sample.registry
      (annotate Sample.registry Sample.toLocal Sample.busybox (v1.mkHash "sha256" "0f0f"))
    !! specsv1.AnnotationBaseImageName
    = Some "/library/busybox:latest".
Proof.
  split.
  - exact (proj1 (annotate_provenance_on_image Sample.registry Sample.pinned Sample.derived
                    (v1.mkHash "sha256" "0f0f") (fun _ _ => eq_refl))).
  - exact (proj1 (proj2 (annotate_provenance_on_image Sample.registry Sample.toLocal
                           Sample.busybox (v1.mkHash "sha256" "0f0f") (fun _ _ => eq_refl)))
             (Sample.hub "busybox") "latest" "busybox:latest" eq_refl).
Defined.


(** C6 fails on the code: the base image's [Digest()] returns an error, and
    [Append] logs it, goes on with the zero hash, and returns a digest with
    a nil error; the image it writes carries [":"] as its base digest. *)
Lemma Append_swallows_base_digest_error :
  Digest Sample.registry Sample.scratchy = (v1.zeroHash, Some (libError "manifest unreadable")) /\
  (exists c h,
     fst (Append Sample.registry (Sample.appenderFor "scratchy:1" "localhost:22500/img:test" [])
            ["app-layer"] Sample.world0) = Ret (c, (h, None))) /\
  (exists img opts,
     last (calls (snd (Append Sample.registry
                         (Sample.appenderFor "scratchy:1" "localhost:22500/img:test" [])
                         ["app-layer"] Sample.world0)))
       = Some (WriteCall (fst (Sample.ParseReference "localhost:22500/img:test")) img opts) /\
     Sample.annotations img !! specsv1.AnnotationBaseImageDigest = Some ":").
Proof.
  split; [reflexivity|]. split.
  - eexists. eexists. vm_compute. reflexivity.
  - eexists. eexists. split; vm_compute; reflexivity.
Qed.

(** ** Further properties of the package *)

Section Further.

Context {Image Layer : Type}.
Variable E : @Env Image Layer.

Implicit Types (c : Appender) (w : @World Image).

(** *** How [Append] ends when [base] does not hand back an image *)

Lemma Append_base_error c (layers : list Layer) w c' err w' :
  base E c (warned (schema.Platforms (config c)) w) = (Ret (c', inr err), w') ->
  Append E c layers w =
    (Ret (c', (v1.zeroHash, Some err)),
     appendEntry zap.ErrorLevel "Failed to get base image" [zap.Error err] w').
Proof.
  unfold Append, warned, platformWarning, logEntry.
  destruct (schema.Platforms (config c)) as [|p [|q r]]; run; cbn; intros ->; reflexivity.
Qed.

Lemma Append_base_stops c (layers : list Layer) w w' :
  base E c (warned (schema.Platforms (config c)) w) = (Panic, w') ->
  Append E c layers w = (Panic, w').
Proof.
  unfold Append, warned, platformWarning, logEntry.
  destruct (schema.Platforms (config c)) as [|p [|q r]]; run; cbn; intros ->; reflexivity.
Qed.

Lemma warned_calls ps w : calls (warned ps w) = calls w.
Proof. unfold warned. destruct (platformWarning ps); reflexivity. Qed.

(** The ways [base] ends on an unresolved receiver. *)
Lemma base_unresolved c w :
  mediaType c = "" ->
  base E c w = (Panic, pulled c w) \/
  (exists err, base E c w = (Ret (c, inr err), pulled c w)) \/
  (exists b mt,
     remote_Image E (baseRef c) (crane.Remote (craneOptions c)) = inl b /\
     MediaType E b = inl mt).
Proof.
  intros Hc. unfold base, pulled. rewrite Hc.
  destruct (remote_Image E (baseRef c) (crane.Remote (craneOptions c))) as [b|err] eqn:Hpull.
  - destruct (MediaType E b) as [mt|err] eqn:Hmt.
    + right. right. exists b, mt. split; [reflexivity | assumption].
    + right. left. eexists. reflexivity.
  - destruct (baseRef c); [right; left; eexists; reflexivity | left; reflexivity].
Qed.

(** Before it has an image to work on, [Append] ends in one of three ways:
    the process exits on a resolved receiver; the pull is made on a nil
    reference that is then dereferenced; or [base] returns an error, which
    [Append] hands on with the zero hash and the receiver as it was. *)
Lemma Append_shape c (layers : list Layer) w :
  (fst (Append E c layers w) = Exit /\ calls (snd (Append E c layers w)) = calls w) \/
  (fst (Append E c layers w) = Panic /\
   calls (snd (Append E c layers w))
     = calls w ++ [ImageCall (baseRef c) (crane.Remote (craneOptions c))]) \/
  (exists err,
     fst (Append E c layers w) = Ret (c, (v1.zeroHash, Some err)) /\
     calls (snd (Append E c layers w))
       = calls w ++ [ImageCall (baseRef c) (crane.Remote (craneOptions c))]) \/
  (exists b mt,
     mediaType c = "" /\
     remote_Image E (baseRef c) (crane.Remote (craneOptions c)) = inl b /\
     MediaType E b = inl mt).
Proof.
  destruct (String.eqb_spec (mediaType c) "") as [Hc|Hc].
  - destruct (base_unresolved c (warned (schema.Platforms (config c)) w) Hc)
      as [Hb|[(err & Hb)|(b & mt & Hpull & Hmt)]].
    + right. left. rewrite (Append_base_stops c layers w _ Hb). cbn.
      rewrite warned_calls. auto.
    + right. right. left. exists err. rewrite (Append_base_error c layers w _ _ _ Hb). cbn.
      rewrite warned_calls. auto.
    + right. right. right. exists b, mt. auto.
  - left. apply Append_already_resolved. assumption.
Qed.

(** [push] reports success only after calling [remote.Write], and only when
    [remote.Write] itself returned nil. *)
Lemma push_nil c image w :
  fst (push E c image w) = Ret None ->
  calls (snd (push E c image w)) = calls w ++ [WriteCall (tagRef c) image (writeOptions c)] /\
  exists sent closes,
    remote_Write E (tagRef c) image (writeOptions c) = remote.WriteRuns sent closes None.
Proof.
  destruct (MediaType E image) as [mt|err] eqn:Hmt.
  - destruct (remote_Write E (tagRef c) image (writeOptions c)) as [|sent closes returned] eqn:Hrun.
    + unfold push. rewrite Hmt.
      change (time_ParseDuration progressReportMinInterval) with (second, @None error).
      fold (writeOptions c). rewrite Hrun. run. discriminate.
    + rewrite (push_runs E c image w mt sent closes returned Hmt Hrun). unfold bind.
      pose proof (drain_outcome E second sent closes (clock E (ticks w) + second)
                    (if writerFirst E then [returned] else []) (started E c image mt w)) as Hout.
      destruct (drain_log E second sent closes (clock E (ticks w) + second)
                  (if writerFirst E then [returned] else []) (started E c image mt w))
        as (new & _ & Hcalls & _).
      destruct (drain E second sent closes _ _ _) as [[[np ec]| | |] w']; cbn [fst snd] in *;
        try discriminate.
      destruct Hout as [-> _].
      destruct (writerFirst E); cbn.
      * intros H. inversion H; subst. split; [assumption | eauto].
      * destruct (forwarded_first sent) as [->|(u & e & _ & _ & ->)]; cbn;
          intros H; inversion H; subst. split; [assumption | eauto].
  - unfold push. rewrite Hmt. run. discriminate.
Qed.

(** With an image in hand, [Append] either fails before the push with the
    zero hash, or ends as the push ends. *)
Lemma Append_resolved_cases c (layers : list Layer) w b mt :
  mediaType c = "" ->
  remote_Image E (baseRef c) (crane.Remote (craneOptions c)) = inl b ->
  MediaType E b = inl mt ->
  (exists e,
     fst (Append E c layers w) = Ret (resolved c mt, (v1.zeroHash, Some e)) /\
     calls (snd (Append E c layers w))
       = calls w ++ [ImageCall (baseRef c) (crane.Remote (craneOptions c))]) \/
  (exists img h,
     mutate_AppendLayers E b layers = inl img /\
     Digest E (annotated E c b img) = (h, None) /\
     calls (snd (Append E c layers w))
       = calls (snd (push E (resolved c mt) (annotated E c b img) (assembling E c b w))) /\
     match fst (push E (resolved c mt) (annotated E c b img) (assembling E c b w)) with
     | Ret None => fst (Append E c layers w) = Ret (resolved c mt, (h, None))
     | Ret (Some e) => fst (Append E c layers w) = Ret (resolved c mt, (v1.zeroHash, Some e))
     | Exit => fst (Append E c layers w) = Exit
     | Panic => fst (Append E c layers w) = Panic
     | Blocked => fst (Append E c layers w) = Blocked
     end).
Proof.
  intros Hc Hpull Hmt.
  rewrite (Append_prologue E c layers w b mt Hc Hpull Hmt).
  destruct (assembling_frame E c b w) as (new0 & _ & _ & Hcalls0).
  destruct (mutate_AppendLayers E b layers) as [img|err] eqn:Himg.
  - destruct (Digest E (annotated E c b img)) as [h [e|]] eqn:Hh.
    + left. exists e. cbn. auto.
    + right. exists img, h. split; [reflexivity|]. split; [assumption|].
      unfold bind.
      destruct (push E (resolved c mt) (annotated E c b img) (assembling E c b w))
        as [[[e|]| | |] w1]; cbn; auto.
  - left. exists err. cbn. auto.
Qed.

(** The registry calls of one [Append]: none, the pull, or the pull and then
    one write, to [tagRef] with the progress option added. *)
Lemma Append_calls c (layers : list Layer) w :
  exists l,
    calls (snd (Append E c layers w)) = calls w ++ l /\
    (l = [] \/
     l = [ImageCall (baseRef c) (crane.Remote (craneOptions c))] \/
     exists img,
       l = [ImageCall (baseRef c) (crane.Remote (craneOptions c));
            WriteCall (tagRef c) img (writeOptions c)]).
Proof.
  destruct (Append_shape c layers w)
    as [[_ H]|[[_ H]|[(err & _ & H)|(b & mt & Hc & Hpull & Hmt)]]].
  - exists []. rewrite app_nil_r. auto.
  - eexists. split; [exact H|]. auto.
  - eexists. split; [exact H|]. auto.
  - destruct (Append_resolved_cases c layers w b mt Hc Hpull Hmt)
      as [(e & _ & H)|(img & h & _ & _ & H & _)].
    + eexists. split; [exact H|]. auto.
    + destruct (assembling_frame E c b w) as (new0 & _ & _ & Hcalls0).
      destruct (push_frame E (resolved c mt) (annotated E c b img) (assembling E c b w))
        as (new1 & _ & _ & [Hp|Hp]); rewrite H, Hp, Hcalls0.
      * eexists. split; [reflexivity|]. auto.
      * rewrite <- app_assoc. eexists. split; [reflexivity|]. right. right. eexists. reflexivity.
Qed.

Lemma stamps_app p (l1 l2 : list (Z * zap.Entry)) :
  stamps p (l1 ++ l2) = stamps p l1 ++ stamps p l2.
Proof. unfold stamps. rewrite List.filter_app, map_app. reflexivity. Qed.

(** While no reading of the clock is past [nextProgress], the loop logs no
    progress line. *)
Lemma drain_quiet d sent closes np :
  (forall n, (clock E n <= np)%Z) ->
  forall errChan w,
    stamps isProgressLine (logged (snd (drain E d sent closes np errChan w)))
      = stamps isProgressLine (logged w).
Proof.
  intros Hclock. induction sent as [|u rest IH]; intros errChan w; cbn [drain].
  - destruct closes; reflexivity.
  - destruct (v1.Error u) as [e|].
    + run. rewrite stamps_app. cbn. apply app_nil_r.
    + destruct (v1.Complete u =? v1.Total u)%Z; run.
      * rewrite IH. cbn -[stamps]. rewrite stamps_app. cbn. apply app_nil_r.
      * destruct (np <? clock E (ticks w))%Z eqn:Hgate.
        -- apply Z.ltb_lt in Hgate. specialize (Hclock (ticks w)). lia.
        -- run. rewrite IH. reflexivity.
Qed.

(** The loop stops at the first update that carries an error. *)
Lemma drain_first_error d pre u post closes e :
  Forall (fun u => v1.Error u = None) pre ->
  v1.Error u = Some e ->
  forall np errChan w,
    drain E d (pre ++ u :: post) closes np errChan w
      = drain E d (pre ++ [u]) false np errChan w /\
    (exists np', fst (drain E d (pre ++ u :: post) closes np errChan w)
                   = Ret (np', errChan ++ [Some e])) /\
    (exists t, last (logged (snd (drain E d (pre ++ u :: post) closes np errChan w)))
                 = Some (t, zap.mkEntry zap.ErrorLevel "push update" [zap.Error e])).
Proof.
  intros Hpre Hu. induction Hpre as [|u0 pre Hu0 _ IH]; intros np errChan w; cbn [app drain].
  - rewrite Hu. run. split; [reflexivity|]. split; [eauto|].
    exists (lastRead w). apply last_snoc.
  - rewrite Hu0.
    destruct (v1.Complete u0 =? v1.Total u0)%Z; run.
    + apply IH.
    + destruct (np <? clock E (ticks w))%Z; run; apply IH.
Qed.

(** X1.  When the base string does not parse, [New] panics: the parse
    error, if any, is logged, and [c.baseRef.String()] is then called on the
    nil reference.  No registry call is made. *)
Theorem New_unparsed_base_panics config w :
  fst (ParseReference E (schema.Base config)) = None ->
  fst (New E config w) = Panic /\
  calls (snd (New E config w)) = calls w /\
  (forall e, snd (ParseReference E (schema.Base config)) = Some e ->
     logged (snd (New E config w))
       = logged w ++ [(lastRead w, zap.mkEntry zap.ErrorLevel "Failed to parse base"
                                     [zap.String "ref" (schema.Base config); zap.Error e])]).
Proof.
  intros Hb. unfold New.
  destruct (ParseReference E (schema.Base config)) as [rb eb]. cbn in Hb. subst rb.
  destruct eb as [e|]; run; cbn; repeat split; try reflexivity; intros e' He; inversion He; subst;
    reflexivity.
Qed.

(** X2.  A pull that fails ends [Append] with the error wrapped as
    [pulling <ref>: ...] and the zero hash; the error is logged, nothing is
    written to the registry, and the receiver is handed back unchanged, so
    still unresolved. *)
Theorem Append_pull_failure c (layers : list Layer) w r err :
  mediaType c = "" ->
  baseRef c = Some r ->
  remote_Image E (baseRef c) (crane.Remote (craneOptions c)) = inr err ->
  fst (Append E c layers w)
    = Ret (c, (v1.zeroHash, Some (wrapError ("pulling " +:+ name.String r) err))) /\
  calls (snd (Append E c layers w))
    = calls w ++ [ImageCall (baseRef c) (crane.Remote (craneOptions c))] /\
  last (logged (snd (Append E c layers w)))
    = Some (lastRead w,
            zap.mkEntry zap.ErrorLevel "Failed to get base image"
              [zap.Error (wrapError ("pulling " +:+ name.String r) err)]).
Proof.
  intros Hc Hr Hpull.
  rewrite (Append_base_error c layers w c (wrapError ("pulling " +:+ name.String r) err)
             (pulled c (warned (schema.Platforms (config c)) w))).
  - cbn. rewrite warned_calls. split; [reflexivity|]. split; [reflexivity|].
    rewrite last_snoc. unfold warned. destruct (platformWarning _); reflexivity.
  - apply base_wraps_pull_error; assumption.
Qed.

(** X3.  When the pulled image's media type cannot be read, [Append] ends
    with the error wrapped as [getting base image media type: ...] and the
    zero hash; nothing is written, and the receiver is handed back unchanged:
    it stays unresolved although the pull was made. *)
Theorem Append_media_type_failure c (layers : list Layer) w b err :
  mediaType c = "" ->
  remote_Image E (baseRef c) (crane.Remote (craneOptions c)) = inl b ->
  MediaType E b = inr err ->
  fst (Append E c layers w)
    = Ret (c, (v1.zeroHash, Some (wrapError "getting base image media type" err))) /\
  calls (snd (Append E c layers w))
    = calls w ++ [ImageCall (baseRef c) (crane.Remote (craneOptions c))].
Proof.
  intros Hc Hpull Hmt.
  rewrite (Append_base_error c layers w c (wrapError "getting base image media type" err)
             (pulled c (warned (schema.Platforms (config c)) w))).
  - cbn. rewrite warned_calls. split; reflexivity.
  - unfold base, pulled. rewrite Hc, Hpull, Hmt. reflexivity.
Qed.

(** X4.  An Appender is good for one [Append].  Once the pull has brought
    an image with a non-empty media type, whatever [Append] then returns
    (success, or a failure to append, digest or push), the Appender it hands
    back is resolved, and every further [Append] on it exits the process
    without calling the registry. *)
Theorem Append_is_single_use c (layers : list Layer) w b mt c1 r :
  mediaType c = "" ->
  remote_Image E (baseRef c) (crane.Remote (craneOptions c)) = inl b ->
  MediaType E b = inl mt ->
  mt <> "" ->
  fst (Append E c layers w) = Ret (c1, r) ->
  c1 = resolved c mt /\
  forall (layers' : list Layer) w',
    fst (Append E c1 layers' w') = Exit /\ calls (snd (Append E c1 layers' w')) = calls w'.
Proof.
  intros Hc Hpull Hmt Hne Hret.
  assert (c1 = resolved c mt) as ->.
  { destruct (Append_resolved_cases c layers w b mt Hc Hpull Hmt)
      as [(e & H & _)|(img & h & _ & _ & _ & H)].
    - congruence.
    - destruct (fst (push E (resolved c mt) (annotated E c b img) (assembling E c b w)))
        as [[e|]| | |]; congruence. }
  split; [reflexivity|].
  intros layers' w'. apply Append_already_resolved. exact Hne.
Qed.

(** X5.  One [Append] makes no registry call, or the pull alone, or the pull
    followed by a single write; it never writes before pulling and never
    writes twice.  The pull is from [baseRef] with the Appender's options,
    the write to [tagRef] with the progress option added to them. *)
Theorem Append_registry_calls c (layers : list Layer) w :
  exists l,
    calls (snd (Append E c layers w)) = calls w ++ l /\
    (l = [] \/
     l = [ImageCall (baseRef c) (crane.Remote (craneOptions c))] \/
     exists img,
       l = [ImageCall (baseRef c) (crane.Remote (craneOptions c));
            WriteCall (tagRef c) img (crane.Remote (craneOptions c) ++ [remote.WithProgress])]).
Proof. exact (Append_calls c layers w). Qed.

(** X6.  When [Append] returns a nil error, the hash it returns is the
    digest computed for the very image it handed to [remote.Write]; that
    write was its last registry call, and [remote.Write] returned nil. *)
Theorem Append_success_is_written_digest c (layers : list Layer) w c1 h :
  fst (Append E c layers w) = Ret (c1, (h, None)) ->
  exists img sent closes,
    last (calls (snd (Append E c layers w))) = Some (WriteCall (tagRef c) img (writeOptions c)) /\
    Digest E img = (h, None) /\
    remote_Write E (tagRef c) img (writeOptions c) = remote.WriteRuns sent closes None.
Proof.
  intros Hret.
  destruct (Append_shape c layers w)
    as [[H _]|[[H _]|[(err & H & _)|(b & mt & Hc & Hpull & Hmt)]]]; try congruence.
  destruct (Append_resolved_cases c layers w b mt Hc Hpull Hmt)
    as [(e & H & _)|(img & h' & _ & Hh & Hcalls & H)]; [congruence|].
  destruct (fst (push E (resolved c mt) (annotated E c b img) (assembling E c b w)))
    as [[e|]| | |] eqn:Hpush; try congruence.
  assert (h' = h) as -> by congruence.
  destruct (push_nil (resolved c mt) (annotated E c b img) (assembling E c b w) Hpush)
    as (Hp & sent & closes & Hrun).
  exists (annotated E c b img), sent, closes.
  split; [|split; assumption].
  rewrite Hcalls, Hp. apply last_snoc.
Qed.

(** X7.  Whenever [Append] returns an error, the hash that comes with it is
    the zero hash. *)
Theorem Append_failure_returns_zero_hash c (layers : list Layer) w c1 h e :
  fst (Append E c layers w) = Ret (c1, (h, Some e)) ->
  h = v1.zeroHash.
Proof.
  intros Hret.
  destruct (Append_shape c layers w)
    as [[H _]|[[H _]|[(err & H & _)|(b & mt & Hc & Hpull & Hmt)]]]; try congruence.
  destruct (Append_resolved_cases c layers w b mt Hc Hpull Hmt)
    as [(e' & H & _)|(img & h' & _ & _ & _ & H)]; [congruence|].
  destruct (fst (push E (resolved c mt) (annotated E c b img) (assembling E c b w)))
    as [[e'|]| | |]; congruence.
Qed.

(** X8.  [Append] never changes the configuration, the two references or the
    options of its receiver: the Appender it hands back is the receiver
    itself, or the receiver with the media type pair filled in, the layer
    type being the one that goes with the media type. *)
Theorem Append_receiver_frame c (layers : list Layer) w c1 r :
  fst (Append E c layers w) = Ret (c1, r) ->
  config c1 = config c /\ baseRef c1 = baseRef c /\ tagRef c1 = tagRef c /\
  craneOptions c1 = craneOptions c /\
  (c1 = c \/ (mediaType c = "" /\ layerType c1 = layerTypeFor (mediaType c1))).
Proof.
  intros Hret.
  destruct (Append_shape c layers w)
    as [[H _]|[[H _]|[(err & H & _)|(b & mt & Hc & Hpull & Hmt)]]]; try congruence.
  - assert (c1 = c) as -> by congruence. auto 10.
  - assert (c1 = resolved c mt) as ->.
    { destruct (Append_resolved_cases c layers w b mt Hc Hpull Hmt)
        as [(e & H & _)|(img & h & _ & _ & _ & H)]; [congruence|].
      destruct (fst (push E (resolved c mt) (annotated E c b img) (assembling E c b w)))
        as [[e|]| | |]; congruence. }
    cbn. auto 10.
Qed.

(** X9.  [push] returns exactly when its drain loop ends.  If the channel
    is closed after the updates, or an update carries an error, [push]
    returns a value; if [remote.Write] leaves the progress channel open and
    sent no error update, [push] blocks for ever, whatever [remote.Write]
    returned. *)
Theorem push_returns_iff_drain_ends c image w mt sent closes returned :
  MediaType E image = inl mt ->
  remote_Write E (tagRef c) image (writeOptions c) = remote.WriteRuns sent closes returned ->
  (drainEnds sent closes -> exists v, fst (push E c image w) = Ret v) /\
  (closes = false -> Forall (fun u => v1.Error u = None) sent ->
     fst (push E c image w) = Blocked).
Proof.
  intros Hmt Hrun. split.
  - intros Hends.
    destruct (push_outcome E c image w mt sent closes returned Hmt Hrun Hends) as (v & _ & Hv).
    eauto.
  - intros Hopen Hok.
    rewrite (push_runs E c image w mt sent closes returned Hmt Hrun). unfold bind.
    pose proof (drain_outcome E second sent closes (clock E (ticks w) + second)
                  (if writerFirst E then [returned] else []) (started E c image mt w)) as Hout.
    destruct (drain E second sent closes _ _ _) as [[[np ec]| | |] w']; cbn [fst] in *.
    + destruct Hout as [_ [Hclosed|Hfwd]]; [congruence|].
      rewrite (forwarded_none sent Hok) in Hfwd. contradiction.
    + contradiction.
    + contradiction.
    + reflexivity.
Qed.

(** X10.  The drain loop stops at the first update that carries an error:
    it logs that error as its last entry, forwards it onto the result
    channel, and returns; the updates sent after it, and whether the channel
    is ever closed, make no difference. *)
Theorem drain_stops_at_first_error d pre u post closes e np errChan w :
  Forall (fun u => v1.Error u = None) pre ->
  v1.Error u = Some e ->
  drain E d (pre ++ u :: post) closes np errChan w
    = drain E d (pre ++ [u]) false np errChan w /\
  (exists np', fst (drain E d (pre ++ u :: post) closes np errChan w)
                 = Ret (np', errChan ++ [Some e])) /\
  (exists t, last (logged (snd (drain E d (pre ++ u :: post) closes np errChan w)))
               = Some (t, zap.mkEntry zap.ErrorLevel "push update" [zap.Error e])).
Proof.
  intros Hpre Hu. apply drain_first_error; assumption.
Qed.

(** X11.  A push during which the clock never reads later than one second
    after the reading taken before the loop logs no progress line at all,
    however many updates arrive. *)
Theorem push_within_a_second_is_quiet c image w mt sent closes returned :
  MediaType E image = inl mt ->
  remote_Write E (tagRef c) image (writeOptions c) = remote.WriteRuns sent closes returned ->
  (forall n, (clock E n <= clock E (ticks w) + second)%Z) ->
  stamps isProgressLine (logged (snd (push E c image w))) = stamps isProgressLine (logged w).
Proof.
  intros Hmt Hrun Hclock.
  rewrite (push_runs E c image w mt sent closes returned Hmt Hrun). unfold bind.
  pose proof (drain_quiet second sent closes (clock E (ticks w) + second) Hclock
                (if writerFirst E then [returned] else []) (started E c image mt w)) as Hq.
  destruct (drain E second sent closes _ _ _) as [[[np ec]| | |] w']; cbn [snd] in *;
    try (destruct (if writerFirst E then ec else ec ++ [returned]); run);
    rewrite Hq; unfold started; cbn -[stamps]; rewrite stamps_app; cbn; apply app_nil_r.
Qed.

(** X12.  When the media type of the annotated image cannot be read, [push]
    returns that error before anything else: [Append] reports it with the
    zero hash, having pulled the base, and [remote.Write] is never called. *)
Theorem Append_media_type_lost_before_write c (layers : list Layer) w b mt img h err :
  mediaType c = "" ->
  remote_Image E (baseRef c) (crane.Remote (craneOptions c)) = inl b ->
  MediaType E b = inl mt ->
  mutate_AppendLayers E b layers = inl img ->
  Digest E (annotated E c b img) = (h, None) ->
  MediaType E (annotated E c b img) = inr err ->
  fst (Append E c layers w) = Ret (resolved c mt, (v1.zeroHash, Some err)) /\
  calls (snd (Append E c layers w))
    = calls w ++ [ImageCall (baseRef c) (crane.Remote (craneOptions c))] /\
  last (logged (snd (Append E c layers w)))
    = Some (lastRead w, zap.mkEntry zap.ErrorLevel "Failed to push" [zap.Error err]).
Proof.
  intros Hc Hpull Hmt Himg Hh Hlost.
  rewrite (Append_prologue E c layers w b mt Hc Hpull Hmt), Himg, Hh.
  destruct (assembling_frame E c b w) as (new0 & _ & _ & Hcalls0).
  unfold bind, push. rewrite Hlost. run.
  split; [reflexivity|]. split; [assumption|].
  rewrite last_snoc. f_equal. f_equal.
  unfold assembling, digestChecked, pulled, warned.
  destruct (snd (Digest E b)); destruct (platformWarning _); reflexivity.
Qed.

(** X14.  An Appender made by [New] carries no registry option: every pull
    its [Append] makes passes no option at all, and every write passes the
    progress option and nothing else. *)
Theorem New_appender_passes_no_options config w0 c err w1 (layers : list Layer) w :
  New E config w0 = (Ret (c, err), w1) ->
  exists l,
    calls (snd (Append E c layers w)) = calls w ++ l /\
    Forall (fun call =>
              match call with
              | ImageCall _ options => options = []
              | WriteCall _ _ options => options = [remote.WithProgress]
              end) l.
Proof.
  intros Hnew.
  assert (crane.Remote (craneOptions c) = []) as Hopts.
  { unfold New in Hnew.
    destruct (ParseReference E (schema.Base config)) as [rb eb].
    destruct (ParseReference E (schema.Tag config)) as [rt et].
    destruct rb, eb, et, rt; run; inversion Hnew; reflexivity. }
  destruct (Append_calls c layers w) as (l & Hcalls & Hl).
  exists l. split; [assumption|].
  unfold writeOptions in Hl. rewrite Hopts in Hl. cbn in Hl.
  destruct Hl as [->|[->|(img & ->)]]; repeat constructor.
Qed.

End Further.

(** ** The further properties on the sample registry *)

Lemma New_unparsed_base_panics_witness :
  fst (New Sample.registry (Sample.config "Bad Base" "localhost:22500/img:test" []) Sample.world0)
    = Panic.
Proof.
  exact (proj1 (New_unparsed_base_panics Sample.registry
                  (Sample.config "Bad Base" "localhost:22500/img:test" []) Sample.world0
                  eq_refl)).
Defined.

Lemma Append_pull_failure_witness :
  fst (Append Sample.registry
         (Sample.appenderFor "ghost:latest" "localhost:22500/img:test" [])
         ["app-layer"] Sample.world0)
    = Ret (Sample.appenderFor "ghost:latest" "localhost:22500/img:test" [],
           (v1.zeroHash,
            Some (wrapError "pulling ghost:latest" (libError "MANIFEST_UNKNOWN")))).
Proof.
  exact (proj1 (Append_pull_failure Sample.registry
                  (Sample.appenderFor "ghost:latest" "localhost:22500/img:test" [])
                  ["app-layer"] Sample.world0
                  (name.Tag (Sample.hub "ghost") "latest" "ghost:latest")
                  (libError "MANIFEST_UNKNOWN") eq_refl eq_refl eq_refl)).
Defined.

Lemma Append_media_type_failure_witness :
  fst (Append Sample.unreadable Sample.toLocal ["app-layer"] Sample.world0)
    = Ret (Sample.toLocal,
           (v1.zeroHash,
            Some (wrapError "getting base image media type" (libError "unsupported MediaType")))).
Proof.
  exact (proj1 (Append_media_type_failure Sample.unreadable Sample.toLocal ["app-layer"]
                  Sample.world0 Sample.busybox (libError "unsupported MediaType")
                  eq_refl eq_refl eq_refl)).
Defined.

Lemma Append_is_single_use_witness :
  fst (Append Sample.refusing Sample.toLocal ["app-layer"] Sample.world0)
    = Ret (resolved Sample.toLocal Sample.DockerManifestSchema2, (v1.zeroHash, Some Sample.denied)) /\
  fst (Append Sample.refusing (resolved Sample.toLocal Sample.DockerManifestSchema2)
         ["app-layer"] Sample.world0) = Exit.
Proof.
  split; [reflexivity|].
  destruct (Append_is_single_use Sample.refusing Sample.toLocal ["app-layer"] Sample.world0
              Sample.busybox Sample.DockerManifestSchema2
              (resolved Sample.toLocal Sample.DockerManifestSchema2)
              (v1.zeroHash, Some Sample.denied)
              eq_refl eq_refl eq_refl ltac:(discriminate) eq_refl) as [_ Hagain].
  exact (proj1 (Hagain ["app-layer"] Sample.world0)).
Defined.

Lemma Append_success_is_written_digest_witness :
  exists h img sent closes,
    fst (Append Sample.registry Sample.toLocal ["app-layer"] Sample.world0)
      = Ret (resolved Sample.toLocal Sample.DockerManifestSchema2, (h, None)) /\
    last (calls (snd (Append Sample.registry Sample.toLocal ["app-layer"] Sample.world0)))
      = Some (WriteCall (tagRef Sample.toLocal) img (writeOptions Sample.toLocal)) /\
    Digest Sample.registry img = (h, None) /\
    remote_Write Sample.registry (tagRef Sample.toLocal) img (writeOptions Sample.toLocal)
      = remote.WriteRuns sent closes None.
Proof.
  eexists. 
  assert (Hret : fst (Append Sample.registry Sample.toLocal ["app-layer"] Sample.world0)
                 = Ret (resolved Sample.toLocal Sample.DockerManifestSchema2, (_, None)))
    by reflexivity.
  destruct (Append_success_is_written_digest Sample.registry Sample.toLocal ["app-layer"]
              Sample.world0 _ _ Hret) as (img & sent & closes & Hlast & Hdigest & Hrun).
  exists img, sent, closes. split; [exact Hret|]. split; [exact Hlast|]. split; assumption.
Defined.

Lemma Append_failure_returns_zero_hash_witness :
  exists h,
    fst (Append Sample.refusing Sample.toLocal ["app-layer"] Sample.world0)
      = Ret (resolved Sample.toLocal Sample.DockerManifestSchema2, (h, Some Sample.denied)) /\
    h = v1.zeroHash.
Proof.
  eexists. split; [reflexivity|].
  exact (Append_failure_returns_zero_hash Sample.refusing Sample.toLocal ["app-layer"]
           Sample.world0 (resolved Sample.toLocal Sample.DockerManifestSchema2) _ Sample.denied
           eq_refl).
Defined.

Lemma Append_receiver_frame_witness :
  exists c1 r,
    fst (Append Sample.registry Sample.toLocal ["app-layer"] Sample.world0) = Ret (c1, r) /\
    config c1 = config Sample.toLocal /\
    tagRef c1 = tagRef Sample.toLocal /\
    layerType c1 = layerTypeFor (mediaType c1).
Proof.
  eexists. eexists. split; [reflexivity|].
  destruct (Append_receiver_frame Sample.registry Sample.toLocal ["app-layer"] Sample.world0
              _ _ eq_refl) as (Hcfg & _ & Htag & _ & _).
  split; [exact Hcfg|]. split; [exact Htag|]. reflexivity.
Defined.

Lemma push_returns_iff_drain_ends_witness :
  fst (push (Sample.env Sample.unclosed false) Sample.toLocal Sample.busybox Sample.world0)
    = Blocked.
Proof.
  refine (proj2 (push_returns_iff_drain_ends (Sample.env Sample.unclosed false) Sample.toLocal
                   Sample.busybox Sample.world0 Sample.DockerManifestSchema2
                   Sample.progress false None eq_refl eq_refl) eq_refl _).
  repeat constructor.
Defined.

Lemma drain_stops_at_first_error_witness :
  drain Sample.refusing second
        ([v1.mkUpdate 10 100 None] ++ v1.mkUpdate 0 0 (Some Sample.denied)
           :: [v1.mkUpdate 100 100 None])
        true 0 [] Sample.world0
  = drain Sample.refusing second
          ([v1.mkUpdate 10 100 None] ++ [v1.mkUpdate 0 0 (Some Sample.denied)])
          false 0 [] Sample.world0.
Proof.
  refine (proj1 (drain_stops_at_first_error Sample.refusing second
                   [v1.mkUpdate 10 100 None] (v1.mkUpdate 0 0 (Some Sample.denied))
                   [v1.mkUpdate 100 100 None] true Sample.denied 0 [] Sample.world0
                   _ eq_refl)).
  repeat constructor.
Defined.

Lemma push_within_a_second_is_quiet_witness :
  stamps isProgressLine
    (logged (snd (push Sample.frozen Sample.toLocal Sample.busybox Sample.world0))) = [].
Proof.
  refine (push_within_a_second_is_quiet Sample.frozen Sample.toLocal Sample.busybox
            Sample.world0 Sample.DockerManifestSchema2 Sample.progress true None
            eq_refl eq_refl _).
  intros n. cbn. unfold second. lia.
Defined.

Lemma Append_media_type_lost_before_write_witness :
  fst (Append Sample.picky Sample.toLocal ["app-layer"] Sample.world0)
    = Ret (resolved Sample.toLocal Sample.DockerManifestSchema2,
           (v1.zeroHash, Some (libError "unsupported MediaType"))) /\
  calls (snd (Append Sample.picky Sample.toLocal ["app-layer"] Sample.world0))
    = [ImageCall (baseRef Sample.toLocal) []].
Proof.
  destruct (Append_media_type_lost_before_write Sample.picky Sample.toLocal ["app-layer"]
              Sample.world0 Sample.busybox Sample.DockerManifestSchema2
              (Sample.mkImage Sample.DockerManifestSchema2 ["busybox-rootfs"; "app-layer"] ∅ false)
              _ (libError "unsupported MediaType")
              eq_refl eq_refl eq_refl eq_refl
              ltac:(vm_compute; reflexivity) ltac:(vm_compute; reflexivity))
    as (Hret & Hcalls & _).
  split; [exact Hret | exact Hcalls].
Defined.

Lemma New_appender_passes_no_options_witness :
  exists l,
    calls (snd (Append Sample.registry Sample.toLocal ["app-layer"] Sample.world0))
      = calls Sample.world0 ++ l /\
    Forall (fun call =>
              match call with
              | ImageCall _ options => options = []
              | WriteCall _ _ options => options = [remote.WithProgress]
              end) l.
Proof.
  exact (New_appender_passes_no_options Sample.registry
           (Sample.config "busybox:latest" "localhost:22500/img:test" []) Sample.world0
           Sample.toLocal None _ ["app-layer"] Sample.world0 eq_refl).
Defined.

End appender.
